(** * MusicReader: the facial-gesture detection engine (faceControl.js)

    A shallow embedding of the most refined variant of the face-control
    module (adaptive thresholds with hysteresis, synchronized blink versus
    wink, rearm after open frames), of its first variant, and of
    [movingAverage] and [clamp] from utils.js.

    - JavaScript numbers that carry signal values (eye aspect ratios, yaw,
      thresholds, [performance.now()]) are IEEE-754 binary64 values: the
      kernel's primitive [float].
    - [Date.now()] readings, the millisecond constants they are compared
      with and [config.cooldownMs] are integers far below 2^53, where
      binary64 arithmetic is exact: they are [Z].
    - Module-level [let] variables are the fields of one [Engine] record,
      threaded through every function.
    - A JavaScript exception is a value of [JsError] returned next to the
      state as it was when the exception was raised. *)

From Stdlib Require Import Floats ZArith List Bool Lia.
Import ListNotations.

Set Warnings "-inexact-float".

(** ** JavaScript number helpers *)

Module JsNum.

Open Scope float_scope.

(** [Math.max(a, b)]: NaN if either argument is NaN, otherwise the larger
    one, [+0] being larger than [-0]. *)
Definition max (a b : float) : float :=
  if is_nan a || is_nan b then nan
  else if a <? b then b
  else if b <? a then a
  else if get_sign a then b else a.

(** [v || 0] on a number: [0], [-0] and NaN are falsy. *)
Definition or_zero (v : float) : float :=
  if is_nan v || is_zero v then 0 else v.

(** [Math.pow(v, 2)]. *)
Definition sq (v : float) : float := v * v.

(** An array length as a number. *)
Definition of_nat (n : nat) : float := of_uint63 (Uint63.of_Z (Z.of_nat n)).

(** [values.reduce((a, b) => a + b, 0)]. *)
Definition sum (values : list float) : float :=
  fold_left (fun a b => a + b) values 0.

(** [values.slice(-n)]: the last [n] elements; [slice(-0)] is [slice(0)],
    the whole array. *)
Definition slice_last {A} (n : nat) (values : list A) : list A :=
  match n with
  | O => values
  | _ => skipn (length values - n) values
  end.

(** [[...values].sort((a, b) => a - b)]: a stable insertion sort driven
    by the sign of the comparator, as engines run on short arrays. The
    element [x] goes before the first [y] with [y - x > 0]. (On an array
    that holds NaN the comparator is inconsistent and ECMAScript leaves
    the order to the implementation.) *)
Fixpoint insert_sorted (x : float) (sorted : list float) : list float :=
  match sorted with
  | [] => [x]
  | y :: rest =>
      if 0 <? y - x then x :: y :: rest else y :: insert_sorted x rest
  end.

Definition sort (values : list float) : list float :=
  fold_left (fun acc x => insert_sorted x acc) values [].

End JsNum.

(** ** Landmarks and geometry *)

Record Point := mkPoint { px : float; py : float; pz : float }.

(** [results.faceLandmarks[0]]: an array of points. *)
Definition Landmarks := list Point.

Inductive JsError :=
| ReferenceError   (* a [const] read before its declaration was evaluated *)
| TypeError.       (* a property read on [undefined] *)

(** A computation that returns or throws. *)
Inductive Result (A : Type) :=
| Ok (a : A)
| Throw (e : JsError).
Arguments Ok {A} a.
Arguments Throw {A} e.

Definition bind {A B} (r : Result A) (k : A -> Result B) : Result B :=
  match r with
  | Ok a => k a
  | Throw e => Throw e
  end.

Declare Scope js_scope.
Delimit Scope js_scope with js.
Notation "x <- r ;; k" := (bind r (fun x => k))
  (at level 61, r at next level, right associativity) : js_scope.

(** [landmarks[i]], to be dereferenced: reading [.x] of [undefined] throws. *)
Definition at_index (landmarks : Landmarks) (i : nat) : Result Point :=
  match nth_error landmarks i with
  | Some p => Ok p
  | None => Throw TypeError
  end.

Section Geometry.

Open Scope float_scope.

(** [distance(p1, p2)] *)
Definition distance (p1 p2 : Point) : float :=
  sqrt (JsNum.sq (px p2 - px p1)
        + JsNum.sq (py p2 - py p1)
        + JsNum.sq (JsNum.or_zero (pz p2) - JsNum.or_zero (pz p1))).

Record Eye := mkEye { p1 : Point; p2 : Point; p3 : Point;
                      p4 : Point; p5 : Point; p6 : Point }.

(** [eyeAspectRatio(eye)] *)
Definition eyeAspectRatio (eye : Eye) : float :=
  let verticalA := distance (p2 eye) (p6 eye) in
  let verticalB := distance (p3 eye) (p5 eye) in
  let horizontal := distance (p1 eye) (p4 eye) in
  (verticalA + verticalB) / (2 * horizontal).

Open Scope js_scope.

Definition eye_at (landmarks : Landmarks) (i1 i2 i3 i4 i5 i6 : nat)
  : Result Eye :=
  a <- at_index landmarks i1 ;; b <- at_index landmarks i2 ;;
  c <- at_index landmarks i3 ;; d <- at_index landmarks i4 ;;
  e <- at_index landmarks i5 ;; f <- at_index landmarks i6 ;;
  Ok (mkEye a b c d e f).

(** [calculateSeparateEAR(landmarks)]: [{ left, right }]. The object
    literals only store the six array elements of each eye; the
    properties are read inside [distance]. *)
Definition calculateSeparateEAR (landmarks : Landmarks)
  : Result (float * float) :=
  leftEye <- eye_at landmarks 33 160 158 133 153 144 ;;
  rightEye <- eye_at landmarks 362 385 387 263 373 380 ;;
  Ok (eyeAspectRatio leftEye, eyeAspectRatio rightEye).

(** [calculateYaw(landmarks)] *)
Definition calculateYaw (landmarks : Landmarks) : Result float :=
  nose <- at_index landmarks 1 ;;
  leftCheek <- at_index landmarks 234 ;;
  rightCheek <- at_index landmarks 454 ;;
  let leftDist := distance nose leftCheek in
  let rightDist := distance nose rightCheek in
  let ratio := ((rightDist - leftDist) / (rightDist + leftDist))%float in
  Ok (ratio * 90)%float.

End Geometry.

(** ** Statistics over signal histories *)

Section Statistics.

Open Scope float_scope.

(** [mean(values)] *)
Definition mean (values : list float) : float :=
  match values with
  | [] => 0
  | _ => JsNum.sum values / JsNum.of_nat (length values)
  end.

(** [stddev(values)] *)
Definition stddev (values : list float) : float :=
  if (length values <? 2)%nat then 0
  else
    let avg := mean values in
    let variance :=
      fold_left (fun acc v => acc + JsNum.sq (v - avg)) values 0
      / JsNum.of_nat (length values - 1) in
    sqrt variance.

(** [median(values)]; an index past the end reads [undefined], which
    arithmetic turns into NaN (it does not happen: [mid < length]). *)
Definition median (values : list float) : float :=
  match values with
  | [] => 0
  | _ =>
      let sorted := JsNum.sort values in
      let mid := Nat.div (length sorted) 2 in
      if Nat.even (length sorted)
      then (nth (mid - 1) sorted nan + nth mid sorted nan) / 2
      else nth mid sorted nan
  end.

(** [movingAverage(values, windowSize)] of utils.js *)
Definition movingAverage (values : list float) (windowSize : nat) : float :=
  match values with
  | [] => 0
  | _ =>
      let window := JsNum.slice_last windowSize values in
      JsNum.sum window / JsNum.of_nat (length window)
  end.

End Statistics.

(** ** Configuration and engine state *)

(** The gesture vocabulary of [config.triggerNext] / [config.triggerPrev]
    and of [triggerReason]. *)
Inductive Gesture :=
| wink_left | wink_right | double_blink | long_blink | head_left | head_right.

Definition gesture_eqb (a b : Gesture) : bool :=
  match a, b with
  | wink_left, wink_left | wink_right, wink_right
  | double_blink, double_blink | long_blink, long_blink
  | head_left, head_left | head_right, head_right => true
  | _, _ => false
  end.

(** [triggered]: ['next'] or ['prev']. *)
Inductive Direction := next | prev.

(** [config]; [onNext], [onPrev] and [debugElement] record whether the
    callback or element is installed ([null] by default). *)
Record Config := mkConfig {
  onNext : bool;
  onPrev : bool;
  debugElement : bool;
  sensitivity : float;
  cooldownMs : Z;
  triggerNext : Gesture;
  triggerPrev : Gesture
}.

Definition default_config : Config :=
  {| onNext := false; onPrev := false; debugElement := false;
     sensitivity := 1.0; cooldownMs := 900;
     triggerNext := double_blink; triggerPrev := long_blink |}.

(** A blink record [{ start, end }]; [end] is [null] while the eyes stay
    closed. *)
Record BlinkEvent := mkBlink { blinkStart : Z; blinkEnd : option Z }.

Inductive WinkState := none | left_winking | right_winking.

Inductive HeadTurnState :=
| center | left | right | triggered_left | triggered_right.

Record Baseline := mkBaseline {
  bLeftEar : float; bRightEar : float; bYaw : float }.

Record Noise := mkNoise {
  nLeftEar : float; nRightEar : float; nDiff : float; nYaw : float }.

(** The module-level detection state and calibration values. *)
Record Engine := mkEngine {
  lastTriggerTime : Z;
  blinkHistory : list BlinkEvent;
  leftEarHistory : list float;
  rightEarHistory : list float;
  yawHistory : list float;
  leftClosedSince : option Z;
  rightClosedSince : option Z;
  blinkState : option BlinkEvent;
  openFrames : nat;
  rearmReady : bool;
  lastFrameTime : float;
  winkState : WinkState;
  winkStartTime : Z;
  lastWinkTrigger : Z;
  headTurnState : HeadTurnState;
  lastHeadTurnTrigger : Z;
  baseline : Baseline;
  noise : Noise
}.

Definition default_baseline : Baseline :=
  {| bLeftEar := 0.25; bRightEar := 0.25; bYaw := 0 |}.

Definition default_noise : Noise :=
  {| nLeftEar := 0.02; nRightEar := 0.02; nDiff := 0.02; nYaw := 0.5 |}.

(** The values the module-level variables are initialised with. *)
Definition initial_engine : Engine :=
  {| lastTriggerTime := 0; blinkHistory := [];
     leftEarHistory := []; rightEarHistory := []; yawHistory := [];
     leftClosedSince := None; rightClosedSince := None;
     blinkState := None; openFrames := 0; rearmReady := true;
     lastFrameTime := 0;
     winkState := none; winkStartTime := 0; lastWinkTrigger := 0;
     headTurnState := center; lastHeadTurnTrigger := 0;
     baseline := default_baseline; noise := default_noise |}.

(** [BASE_THRESHOLDS] *)
Module BASE_THRESHOLDS.
Definition minEarDrop : float := 0.12.
Definition minOpenDrop : float := 0.06.
Definition noiseMultClose : float := 6.
Definition noiseMultOpen : float := 3.
Definition diffMin : float := 0.04.
Definition diffNoiseMult : float := 3.
Definition blinkMinMs : Z := 60.
Definition blinkMaxMs : Z := 350.
Definition longBlinkMs : Z := 420.
Definition longBlinkMaxMs : Z := 900.
Definition doubleBlinkWindowMs : Z := 700.
Definition blinkSyncMs : Z := 80.
Definition winkMinMs : Z := 60.
Definition winkMaxMs : Z := 500.
Definition winkCooldownMs : Z := 300.
Definition headTurnDeg : float := 5.
Definition headReturnDeg : float := 3.
Definition baselineEma : float := 0.01.
Definition rearmOpenFrames : nat := 3.
Definition targetFps : float := 30.
End BASE_THRESHOLDS.

(** Assignments to the variables that are written before the frame's
    first possible exception. *)
Definition set_lastFrameTime (t : float) (s : Engine) : Engine :=
  {| lastTriggerTime := lastTriggerTime s; blinkHistory := blinkHistory s;
     leftEarHistory := leftEarHistory s; rightEarHistory := rightEarHistory s;
     yawHistory := yawHistory s;
     leftClosedSince := leftClosedSince s;
     rightClosedSince := rightClosedSince s;
     blinkState := blinkState s; openFrames := openFrames s;
     rearmReady := rearmReady s; lastFrameTime := t;
     winkState := winkState s; winkStartTime := winkStartTime s;
     lastWinkTrigger := lastWinkTrigger s;
     headTurnState := headTurnState s;
     lastHeadTurnTrigger := lastHeadTurnTrigger s;
     baseline := baseline s; noise := noise s |}.

Definition set_histories (l r y : list float) (s : Engine) : Engine :=
  {| lastTriggerTime := lastTriggerTime s; blinkHistory := blinkHistory s;
     leftEarHistory := l; rightEarHistory := r; yawHistory := y;
     leftClosedSince := leftClosedSince s;
     rightClosedSince := rightClosedSince s;
     blinkState := blinkState s; openFrames := openFrames s;
     rearmReady := rearmReady s; lastFrameTime := lastFrameTime s;
     winkState := winkState s; winkStartTime := winkStartTime s;
     lastWinkTrigger := lastWinkTrigger s;
     headTurnState := headTurnState s;
     lastHeadTurnTrigger := lastHeadTurnTrigger s;
     baseline := baseline s; noise := noise s |}.

Definition set_leftClosedSince (v : option Z) (s : Engine) : Engine :=
  {| lastTriggerTime := lastTriggerTime s; blinkHistory := blinkHistory s;
     leftEarHistory := leftEarHistory s; rightEarHistory := rightEarHistory s;
     yawHistory := yawHistory s;
     leftClosedSince := v; rightClosedSince := rightClosedSince s;
     blinkState := blinkState s; openFrames := openFrames s;
     rearmReady := rearmReady s; lastFrameTime := lastFrameTime s;
     winkState := winkState s; winkStartTime := winkStartTime s;
     lastWinkTrigger := lastWinkTrigger s;
     headTurnState := headTurnState s;
     lastHeadTurnTrigger := lastHeadTurnTrigger s;
     baseline := baseline s; noise := noise s |}.

Definition set_rightClosedSince (v : option Z) (s : Engine) : Engine :=
  {| lastTriggerTime := lastTriggerTime s; blinkHistory := blinkHistory s;
     leftEarHistory := leftEarHistory s; rightEarHistory := rightEarHistory s;
     yawHistory := yawHistory s;
     leftClosedSince := leftClosedSince s; rightClosedSince := v;
     blinkState := blinkState s; openFrames := openFrames s;
     rearmReady := rearmReady s; lastFrameTime := lastFrameTime s;
     winkState := winkState s; winkStartTime := winkStartTime s;
     lastWinkTrigger := lastWinkTrigger s;
     headTurnState := headTurnState s;
     lastHeadTurnTrigger := lastHeadTurnTrigger s;
     baseline := baseline s; noise := noise s |}.

Definition set_calibration (b : Baseline) (n : Noise) (s : Engine) : Engine :=
  {| lastTriggerTime := lastTriggerTime s; blinkHistory := blinkHistory s;
     leftEarHistory := leftEarHistory s; rightEarHistory := rightEarHistory s;
     yawHistory := yawHistory s;
     leftClosedSince := leftClosedSince s;
     rightClosedSince := rightClosedSince s;
     blinkState := blinkState s; openFrames := openFrames s;
     rearmReady := rearmReady s; lastFrameTime := lastFrameTime s;
     winkState := winkState s; winkStartTime := winkStartTime s;
     lastWinkTrigger := lastWinkTrigger s;
     headTurnState := headTurnState s;
     lastHeadTurnTrigger := lastHeadTurnTrigger s;
     baseline := b; noise := n |}.

(** ** Calibration *)

(** One turn of the calibration loop: the [Date.now()] reading of the loop
    test and what [detectForVideo] found ([faceLandmarks[0]], or nothing
    when [faceLandmarks] is missing or empty). *)
Record CalibrationTick := mkTick {
  tickTime : Z;
  tickFace : option Landmarks
}.

(** [leftEarSamples], [rightEarSamples], [yawSamples], [diffSamples] *)
Record Samples := mkSamples {
  leftEarSamples : list float;
  rightEarSamples : list float;
  yawSamples : list float;
  diffSamples : list float
}.

Definition no_samples : Samples := mkSamples [] [] [] [].

Section Calibration.

Open Scope js_scope.

Definition calibrationDuration : Z := 2000.

(** The body of the [while] loop for one tick. *)
Definition sampleTick (face : option Landmarks) (acc : Samples)
  : Result Samples :=
  match face with
  | None => Ok acc
  | Some landmarks =>
      ears <- calculateSeparateEAR landmarks ;;
      yaw <- calculateYaw landmarks ;;
      let '(l, r) := ears in
      Ok {| leftEarSamples := leftEarSamples acc ++ [l];
            rightEarSamples := rightEarSamples acc ++ [r];
            yawSamples := yawSamples acc ++ [yaw];
            diffSamples := diffSamples acc ++ [abs (l - r)] |}
  end.

(** The [while (Date.now() - startTime < calibrationDuration)] loop over
    the ticks the clock and the camera deliver. [None] means the ticks
    ran out while the loop test still held: the loop has not ended. *)
Fixpoint sampleLoop (startTime : Z) (ticks : list CalibrationTick)
    (acc : Samples) : option (Result Samples) :=
  match ticks with
  | [] => None
  | t :: rest =>
      if (tickTime t - startTime <? calibrationDuration)%Z then
        match sampleTick (tickFace t) acc with
        | Ok acc' => sampleLoop startTime rest acc'
        | Throw e => Some (Throw e)
        end
      else Some (Ok acc)
  end.

(** The "Set baselines" part. The arrays are pushed together, so the
    three length tests agree. *)
Definition setBaselines (smp : Samples) (s : Engine) : Engine :=
  let b := baseline s in
  let n := noise s in
  let '(bl, br, nl, nr) :=
    if (0 <? length (leftEarSamples smp))%nat
    then (mean (leftEarSamples smp), mean (rightEarSamples smp),
          JsNum.max (stddev (leftEarSamples smp)) 0.005,
          JsNum.max (stddev (rightEarSamples smp)) 0.005)
    else (bLeftEar b, bRightEar b, nLeftEar n, nRightEar n) in
  let '(by_, ny) :=
    if (0 <? length (yawSamples smp))%nat
    then (mean (yawSamples smp), JsNum.max (stddev (yawSamples smp)) 0.1)
    else (bYaw b, nYaw n) in
  let nd :=
    if (0 <? length (diffSamples smp))%nat
    then JsNum.max (stddev (diffSamples smp)) 0.005
    else nDiff n in
  set_calibration (mkBaseline bl br by_) (mkNoise nl nr nd ny) s.

(** [calibrateBaseline()] started at [startTime]. *)
Definition calibrateBaseline (startTime : Z) (ticks : list CalibrationTick)
    (s : Engine) : option (Result Engine) :=
  match sampleLoop startTime ticks no_samples with
  | None => None
  | Some (Throw e) => Some (Throw e)
  | Some (Ok smp) => Some (Ok (setBaselines smp s))
  end.

End Calibration.

(** ** Frame processing *)

(** What one call of [processFrame] reads from its environment:
    [performance.now()], the detector's first face if any, [Date.now()]. *)
Record FrameInput := mkInput {
  perfNow : float;
  detection : option Landmarks;
  dateNow : Z
}.

Record Trigger := mkTrigger {
  triggered : Direction;
  triggerReason : Gesture
}.

Inductive Outcome :=
| Skipped                          (* too soon after the last frame *)
| NoFace                           (* [updateDebug({ faceDetected: false })] *)
| Processed (t : option Trigger)   (* ran to the end *)
| Threw (e : JsError).

(** The smoothed signals and the eye classification of a frame. *)
Record Reading := mkReading {
  smoothLeftEar : float;
  smoothRightEar : float;
  smoothYaw : float;
  leftCloseThreshold : float;
  rightCloseThreshold : float;
  leftOpenThreshold : float;
  rightOpenThreshold : float;
  leftClosed : bool;
  rightClosed : bool;
  leftOpen : bool;
  rightOpen : bool;
  earDifference : float
}.

Section ProcessFrame.

Import BASE_THRESHOLDS.
Variable config : Config.

(** [history.push(v); if (history.length > limit) history.shift()] *)
Definition push_limited (limit : nat) (history : list float) (v : float)
  : list float :=
  let h := history ++ [v] in
  if (limit <? length h)%nat then tl h else h.

Definition pushHistories (leftEar rightEar yaw : float) (s : Engine)
  : Engine :=
  set_histories (push_limited 7 (leftEarHistory s) leftEar)
                (push_limited 7 (rightEarHistory s) rightEar)
                (push_limited 5 (yawHistory s) yaw) s.

(** "Smoothed values" and "Detect eye states". *)
Definition readEyes (s : Engine) : Reading :=
  let smoothLeftEar := median (leftEarHistory s) in
  let smoothRightEar := median (rightEarHistory s) in
  let smoothYaw := movingAverage (yawHistory s) 3 in
  let sensitivity := sensitivity config in
  let n := noise s in
  let b := baseline s in
  let leftCloseDrop :=
    (JsNum.max minEarDrop (nLeftEar n * noiseMultClose) / sensitivity)%float in
  let rightCloseDrop :=
    (JsNum.max minEarDrop (nRightEar n * noiseMultClose) / sensitivity)%float in
  let leftOpenDrop :=
    (JsNum.max minOpenDrop (nLeftEar n * noiseMultOpen) / sensitivity)%float in
  let rightOpenDrop :=
    (JsNum.max minOpenDrop (nRightEar n * noiseMultOpen) / sensitivity)%float in
  let leftCloseThreshold := (bLeftEar b - leftCloseDrop)%float in
  let rightCloseThreshold := (bRightEar b - rightCloseDrop)%float in
  let leftOpenThreshold := (bLeftEar b - leftOpenDrop)%float in
  let rightOpenThreshold := (bRightEar b - rightOpenDrop)%float in
  {| smoothLeftEar := smoothLeftEar;
     smoothRightEar := smoothRightEar;
     smoothYaw := smoothYaw;
     leftCloseThreshold := leftCloseThreshold;
     rightCloseThreshold := rightCloseThreshold;
     leftOpenThreshold := leftOpenThreshold;
     rightOpenThreshold := rightOpenThreshold;
     leftClosed := (smoothLeftEar <? leftCloseThreshold)%float;
     rightClosed := (smoothRightEar <? rightCloseThreshold)%float;
     leftOpen := (leftOpenThreshold <? smoothLeftEar)%float;
     rightOpen := (rightOpenThreshold <? smoothRightEar)%float;
     earDifference := abs (smoothLeftEar - smoothRightEar) |}.

(** A read of [now] in the closure bookkeeping. [now] is a [const] of
    the function body whose declaration, [const now = Date.now()], comes
    only after the wink thresholds: up to there the binding is in its
    temporal dead zone and reading it throws a ReferenceError. *)
Definition now_before_declaration : Result Z := Throw ReferenceError.

(** [if (closed && since === null) since = now;
     if (!closed) since = null;] *)
Definition trackClosure (closed : bool) (since : option Z)
  : Result (option Z) :=
  (since1 <- (match since with
              | None => if closed
                        then (n <- now_before_declaration ;; Ok (Some n))
                        else Ok since
              | Some _ => Ok since
              end) ;;
   Ok (if negb closed then None else since1))%js.

(** The frame up to the declaration of [now]: the rate limiter, the
    detector's answer, the signals, the histories, the classification
    and the closure bookkeeping. Either the call is over (left) or the
    frame goes on with the state so far and its reading (right). *)
Definition enterFrame (s : Engine) (inp : FrameInput)
  : (Engine * Outcome) + (Engine * Reading) :=
  let startTime := perfNow inp in
  if (startTime - lastFrameTime s <? 1000 / targetFps)%float
  then inl (s, Skipped)
  else
    let s := set_lastFrameTime startTime s in
    match detection inp with
    | None => inl (s, NoFace)
    | Some landmarks =>
        match calculateSeparateEAR landmarks with
        | Throw e => inl (s, Threw e)
        | Ok (leftEar, rightEar) =>
            match calculateYaw landmarks with
            | Throw e => inl (s, Threw e)
            | Ok yaw =>
                let s := pushHistories leftEar rightEar yaw s in
                let r := readEyes s in
                match trackClosure (leftClosed r) (leftClosedSince s) with
                | Throw e => inl (s, Threw e)
                | Ok since =>
                    let s := set_leftClosedSince since s in
                    match trackClosure (rightClosed r)
                                       (rightClosedSince s) with
                    | Throw e => inl (s, Threw e)
                    | Ok since => inr (set_rightClosedSince since s, r)
                    end
                end
            end
        end
    end.

(** The frame's constants that later theorems talk about. *)
Record Locals := mkLocals {
  now : Z;
  bothClosed : bool;
  isLeftWink : bool;
  isRightWink : bool;
  inCooldown : bool;
  winkCooldown : bool;
  yawDelta : float
}.

(** [bothClosed], the wink readings, [now] and the two cooldown flags.
    [s] is the state after the closure bookkeeping. *)
Definition frameLocals (s : Engine) (r : Reading) (dateNow : Z) : Locals :=
  let bothClosed :=
    leftClosed r && rightClosed r &&
    match leftClosedSince s, rightClosedSince s with
    | Some l, Some r' => (Z.abs (l - r') <=? blinkSyncMs)%Z
    | _, _ => false
    end in
  let winkDiffThreshold :=
    (JsNum.max diffMin (nDiff (noise s) * diffNoiseMult)
     / sensitivity config)%float in
  let over := (winkDiffThreshold <? earDifference r)%float in
  let now := dateNow in
  {| now := now;
     bothClosed := bothClosed;
     isLeftWink := rightClosed r && leftOpen r && over;
     isRightWink := leftClosed r && rightOpen r && over;
     inCooldown := (now - lastTriggerTime s <? cooldownMs config)%Z;
     winkCooldown := (now - lastWinkTrigger s <? winkCooldownMs)%Z;
     yawDelta := (smoothYaw r - bYaw (baseline s))%float |}.

(** "Wink state machine": the new [winkState] and [winkStartTime], and
    [winkTriggered]. *)
Definition winkMachine (v : Locals) (state : WinkState) (startTime : Z)
  : WinkState * Z * option Gesture :=
  if winkCooldown v then (state, startTime, None)
  else if isLeftWink v
          && negb (match state with left_winking => true | _ => false end)
          && negb (bothClosed v)
  then (left_winking, now v, None)
  else if isRightWink v
          && negb (match state with right_winking => true | _ => false end)
          && negb (bothClosed v)
  then (right_winking, now v, None)
  else if negb (isLeftWink v) && negb (isRightWink v)
          && negb (match state with none => true | _ => false end)
  then
    let winkDuration := (now v - startTime)%Z in
    let winkTriggered :=
      if ((winkMinMs <=? winkDuration) && (winkDuration <=? winkMaxMs))%Z
      then match state with
           | left_winking => Some wink_left
           | right_winking => Some wink_right
           | none => None
           end
      else None in
    (none, startTime, winkTriggered)
  else (state, startTime, None).

(** "Blink detection" followed by "Clean old blinks": the new
    [blinkState] and [blinkHistory]. *)
Definition blinkMachine (v : Locals) (state : option BlinkEvent)
    (history : list BlinkEvent) : option BlinkEvent * list BlinkEvent :=
  let '(state1, history1) :=
    if bothClosed v then
      match state with
      | None => (Some (mkBlink (now v) None), history)
      | Some _ => (state, history)
      end
    else
      match state with
      | Some b =>
          match blinkEnd b with
          | None => (None, history ++ [mkBlink (blinkStart b) (Some (now v))])
          | Some _ => (state, history)
          end
      | None => (state, history)
      end in
  (state1, filter (fun b => (now v - blinkStart b <? 3000)%Z) history1).

(** "Head turn state machine" *)
Definition headMachine (v : Locals) (state : HeadTurnState)
  : HeadTurnState :=
  let absYaw := abs (yawDelta v) in
  let headTurnThreshold := (headTurnDeg / sensitivity config)%float in
  if (absYaw <? headReturnDeg)%float then center
  else if (headTurnThreshold <? yawDelta v)%float then
    match state with center => right | _ => state end
  else if (yawDelta v <? - headTurnThreshold)%float then
    match state with center => left | _ => state end
  else state.

(** [if (config.triggerNext === g) 'next'
     else if (config.triggerPrev === g) 'prev'], with [g] as the reason. *)
Definition bindingFor (g : Gesture) : option Trigger :=
  if gesture_eqb (triggerNext config) g then Some (mkTrigger next g)
  else if gesture_eqb (triggerPrev config) g then Some (mkTrigger prev g)
  else None.

(** "Check wink triggers FIRST" *)
Definition winkTrigger (v : Locals) (winkTriggered : option Gesture)
  : option Trigger :=
  match winkTriggered with
  | Some w =>
      if negb (inCooldown v) then
        match w with
        | wink_left => bindingFor wink_left
        | wink_right => bindingFor wink_right
        | _ => None
        end
      else None
  | None => None
  end.

(** A completed blink of short duration. *)
Definition isShortBlink (b : BlinkEvent) : bool :=
  match blinkEnd b with
  | None => false
  | Some e =>
      let dur := (e - blinkStart b)%Z in
      ((blinkMinMs <=? dur) && (dur <=? blinkMaxMs))%Z
  end.

(** "Double blink": the last two completed short blinks. *)
Definition doubleBlinkTrigger (v : Locals) (history : list BlinkEvent)
  : option Trigger :=
  let completedBlinks := filter isShortBlink history in
  if (2 <=? length completedBlinks)%nat then
    match JsNum.slice_last 2 completedBlinks with
    | [blink1; blink2] =>
        match blinkEnd blink1, blinkEnd blink2 with
        | Some end1, Some end2 =>
            let timeBetweenBlinks := (blinkStart blink2 - end1)%Z in
            if ((now v - end2 <? 300)
                && (timeBetweenBlinks <? doubleBlinkWindowMs)
                && (80 <? timeBetweenBlinks))%Z
            then bindingFor double_blink
            else None
        | _, _ => None
        end
    | _ => None
    end
  else None.

Definition isLongBlink (v : Locals) (b : BlinkEvent) : bool :=
  match blinkEnd b with
  | None => false
  | Some e =>
      ((longBlinkMs <=? e - blinkStart b)
       && (e - blinkStart b <=? longBlinkMaxMs)
       && (now v - e <? 300))%Z
  end.

(** "Check long blink" *)
Definition longBlinkTrigger (v : Locals) (history : list BlinkEvent)
  : option Trigger :=
  let longBlinks := filter (isLongBlink v) history in
  if (0 <? length longBlinks)%nat then bindingFor long_blink else None.

(** "Check head turn": the trigger if any, and the new
    [lastHeadTurnTrigger] and [headTurnState]. *)
Definition headTurnTrigger (v : Locals) (state : HeadTurnState)
    (lastHead : Z) : option Trigger * Z * HeadTurnState :=
  let elapsed := (cooldownMs config <? now v - lastHead)%Z in
  match state with
  | right =>
      if elapsed then
        match bindingFor head_right with
        | Some t => (Some t, now v, triggered_right)
        | None => (None, lastHead, state)
        end
      else (None, lastHead, state)
  | left =>
      if elapsed then
        match bindingFor head_left with
        | Some t => (Some t, now v, triggered_left)
        | None => (None, lastHead, state)
        end
      else (None, lastHead, state)
  | _ => (None, lastHead, state)
  end.

(** "Detect triggers", after the wink check: the block guarded by
    [!inCooldown && !triggered && rearmReady]. *)
Definition blinkAndHeadTriggers (v : Locals) (ready : bool)
    (fromWink : option Trigger) (history : list BlinkEvent)
    (state : HeadTurnState) (lastHead : Z)
  : option Trigger * Z * HeadTurnState :=
  if negb (inCooldown v)
     && negb (match fromWink with Some _ => true | None => false end)
     && ready
  then
    match doubleBlinkTrigger v history with
    | Some t => (Some t, lastHead, state)
    | None =>
        match longBlinkTrigger v history with
        | Some t => (Some t, lastHead, state)
        | None => headTurnTrigger v state lastHead
        end
    end
  else (fromWink, lastHead, state).

(** The rearm block after "Execute trigger". *)
Definition rearm (r : Reading) (ready : bool) (frames : nat) : bool * nat :=
  if negb ready then
    let frames1 := if leftOpen r && rightOpen r then S frames else O in
    (if (rearmOpenFrames <=? frames1)%nat then true else ready, frames1)
  else (ready, frames).

(** "Slowly adapt baseline during open-eye state" *)
Definition adaptBaseline (r : Reading) (v : Locals) (b : Baseline)
  : Baseline :=
  if leftOpen r && rightOpen r && negb (inCooldown v) then
    {| bLeftEar := (bLeftEar b * (1 - baselineEma)
                    + smoothLeftEar r * baselineEma)%float;
       bRightEar := (bRightEar b * (1 - baselineEma)
                     + smoothRightEar r * baselineEma)%float;
       bYaw := (bYaw b * (1 - baselineEma)
                + smoothYaw r * baselineEma)%float |}
  else b.

(** The frame from [const now = Date.now()] to the end. The debug
    display only formats values into the page and is left out. *)
Definition finishFrame (s : Engine) (r : Reading) (dateNow : Z)
  : Engine * Outcome :=
  let v := frameLocals s r dateNow in
  let '(winkState1, winkStartTime1, winkTriggered) :=
    winkMachine v (winkState s) (winkStartTime s) in
  let '(blinkState1, blinkHistory1) :=
    blinkMachine v (blinkState s) (blinkHistory s) in
  let headTurnState1 := headMachine v (headTurnState s) in
  let fromWink := winkTrigger v winkTriggered in
  let lastWinkTrigger1 :=
    match fromWink with Some _ => now v | None => lastWinkTrigger s end in
  let '(trig, lastHead1, headTurnState2) :=
    blinkAndHeadTriggers v (rearmReady s) fromWink blinkHistory1
                         headTurnState1 (lastHeadTurnTrigger s) in
  (* Execute trigger *)
  let '(lastTriggerTime1, blinkHistory2, ready1, frames1) :=
    match trig with
    | Some _ => (now v, [], false, O)
    | None => (lastTriggerTime s, blinkHistory1, rearmReady s, openFrames s)
    end in
  let '(ready2, frames2) := rearm r ready1 frames1 in
  ({| lastTriggerTime := lastTriggerTime1;
      blinkHistory := blinkHistory2;
      leftEarHistory := leftEarHistory s;
      rightEarHistory := rightEarHistory s;
      yawHistory := yawHistory s;
      leftClosedSince := leftClosedSince s;
      rightClosedSince := rightClosedSince s;
      blinkState := blinkState1;
      openFrames := frames2;
      rearmReady := ready2;
      lastFrameTime := lastFrameTime s;
      winkState := winkState1;
      winkStartTime := winkStartTime1;
      lastWinkTrigger := lastWinkTrigger1;
      headTurnState := headTurnState2;
      lastHeadTurnTrigger := lastHead1;
      baseline := adaptBaseline r v (baseline s);
      noise := noise s |},
   Processed trig).

(** [processFrame()] *)
Definition processFrame (s : Engine) (inp : FrameInput) : Engine * Outcome :=
  match enterFrame s inp with
  | inl done => done
  | inr (s1, r) => finishFrame s1 r (dateNow inp)
  end.

(** The callback [processFrame] invokes for a trigger: [config.onNext()]
    or [config.onPrev()] when it is installed. *)
Definition dispatch (o : Outcome) : list Direction :=
  match o with
  | Processed (Some t) =>
      match triggered t with
      | next => if onNext config then [next] else []
      | prev => if onPrev config then [prev] else []
      end
  | _ => []
  end.

End ProcessFrame.

(** ** Runs of the detection loop *)

(** A trigger with the [Date.now()] reading it was emitted at. *)
Record Emission := mkEmission { emittedAt : Z; emitted : Trigger }.

Definition emission (inp : FrameInput) (o : Outcome) : list Emission :=
  match o with
  | Processed (Some t) => [mkEmission (dateNow inp) t]
  | _ => []
  end.

(** Successive calls of [processFrame] by the running, unpaused detection
    loop. A call that throws rejects its own promise only: the loop goes
    on with the state the call left behind. *)
Fixpoint run (config : Config) (s : Engine) (inputs : list FrameInput)
  : Engine * list Emission :=
  match inputs with
  | [] => (s, [])
  | inp :: rest =>
      let '(s1, o) := processFrame config s inp in
      let '(s2, es) := run config s1 rest in
      (s2, emission inp o ++ es)
  end.

(** The outcomes of the same calls. *)
Fixpoint outcomes (config : Config) (s : Engine) (inputs : list FrameInput)
  : list Outcome :=
  match inputs with
  | [] => []
  | inp :: rest =>
      let '(s1, o) := processFrame config s inp in
      o :: outcomes config s1 rest
  end.

(** States the engine can be in during a session: the calibrated initial
    state and whatever [processFrame] makes of them. *)
Inductive reachable (config : Config) : Engine -> Prop :=
| reach_calibrated startTime ticks s :
    calibrateBaseline startTime ticks initial_engine = Some (Ok s) ->
    reachable config s
| reach_frame s inp :
    reachable config s ->
    reachable config (fst (processFrame config s inp)).

(** ** Synthetic faces *)

Module Synthetic.

Open Scope float_scope.

(** A face with the given eye aspect ratios and nose offset: each eye is
    one unit wide with both lids raised by its ratio, the cheeks sit at
    [-1] and [1], so that the yaw is [-90] times the nose offset. *)
Definition point_of (leftEar rightEar nose : float) (i : nat) : Point :=
  match i with
  | 1%nat => mkPoint nose 0 0
  | 234%nat => mkPoint (-1) 0 0
  | 454%nat => mkPoint 1 0 0
  | 133%nat | 263%nat => mkPoint 1 0 0
  | 160%nat | 158%nat => mkPoint 0.5 leftEar 0
  | 153%nat | 144%nat => mkPoint 0.5 0 0
  | 385%nat | 387%nat => mkPoint 0.5 rightEar 0
  | 373%nat | 380%nat => mkPoint 0.5 0 0
  | _ => mkPoint 0 0 0
  end.

Definition face (leftEar rightEar nose : float) : Landmarks :=
  map (point_of leftEar rightEar nose) (seq 0 478).

(** A frame at [t] milliseconds on both clocks. *)
Definition frame (t : Z) (leftEar rightEar nose : float) : FrameInput :=
  {| perfNow := of_uint63 (Uint63.of_Z t);
     detection := Some (face leftEar rightEar nose);
     dateNow := t |}.

Definition no_face (t : Z) : FrameInput :=
  {| perfNow := of_uint63 (Uint63.of_Z t);
     detection := None; dateNow := t |}.

End Synthetic.

(** ** Session: start, loop and stop *)

(** The module's handles and flags: whether [faceLandmarker],
    [videoElement] and [stream] are set, the pending animation-frame
    request if any, [isRunning], [isPaused]. *)
Record Session := mkSession {
  faceLandmarker : bool;
  videoElement : bool;
  stream : bool;
  animationId : option nat;
  isRunning : bool;
  isPaused : bool
}.

(** All module-level variables of faceControl.js but [config]. *)
Record FaceControl := mkFaceControl {
  session : Session;
  engine : Engine
}.

Definition initial_session : Session :=
  {| faceLandmarker := false; videoElement := false; stream := false;
     animationId := None; isRunning := false; isPaused := false |}.

Definition initial_module : FaceControl :=
  {| session := initial_session; engine := initial_engine |}.

(** [detectLoop()]: one firing of the animation-frame callback;
    [requestId] is what [requestAnimationFrame] returns for the next one.
    [processFrame] is not awaited, and nothing observes its promise. *)
Definition detectLoop (config : Config) (m : FaceControl)
    (inp : FrameInput) (requestId : nat) : FaceControl * option Outcome :=
  let ss := session m in
  if negb (isRunning ss) || negb (faceLandmarker ss) || negb (videoElement ss)
  then (m, None)
  else
    let '(e, o) :=
      if negb (isPaused ss)
      then (let '(e, o) := processFrame config (engine m) inp in (e, Some o))
      else (engine m, None) in
    ({| session :=
          {| faceLandmarker := faceLandmarker ss;
             videoElement := videoElement ss; stream := stream ss;
             animationId := Some requestId;
             isRunning := isRunning ss; isPaused := isPaused ss |};
        engine := e |}, o).

(** [initFaceControl(options)] once the camera, the video element and the
    landmarker are there: calibration, then [isRunning = true]. (The first
    [detectLoop()] call is the first firing above.) *)
Definition initFaceControl (startTime : Z) (ticks : list CalibrationTick)
    (m : FaceControl) : option (Result FaceControl) :=
  match calibrateBaseline startTime ticks (engine m) with
  | None => None
  | Some (Throw e) => Some (Throw e)
  | Some (Ok e) =>
      Some (Ok {| session :=
                    {| faceLandmarker := true; videoElement := true;
                       stream := true;
                       animationId := animationId (session m);
                       isRunning := true;
                       isPaused := isPaused (session m) |};
                  engine := e |})
  end.

(** [destroyFaceControl()]: the handles are released and the variables
    listed under "Reset state" are reset; the other variables keep their
    values. *)
Definition destroyFaceControl (m : FaceControl) : FaceControl :=
  let e := engine m in
  {| session :=
       {| faceLandmarker := false; videoElement := false; stream := false;
          animationId := None; isRunning := false; isPaused := false |};
     engine :=
       {| lastTriggerTime := 0;
          blinkHistory := [];
          leftEarHistory := [];
          rightEarHistory := [];
          yawHistory := [];
          leftClosedSince := leftClosedSince e;
          rightClosedSince := rightClosedSince e;
          blinkState := blinkState e;
          openFrames := openFrames e;
          rearmReady := rearmReady e;
          lastFrameTime := lastFrameTime e;
          winkState := none;
          winkStartTime := 0;
          lastWinkTrigger := 0;
          headTurnState := center;
          lastHeadTurnTrigger := 0;
          baseline := baseline e;
          noise := noise e |} |}.

(** ** Vocabulary of the properties *)

Definition trigger_of (o : Outcome) : option Trigger :=
  match o with
  | Processed t => t
  | _ => None
  end.

(** The state after a run. *)
Definition after (config : Config) (s : Engine) (inputs : list FrameInput)
  : Engine :=
  fst (run config s inputs).

(** The first candidate of a list in priority order. *)
Fixpoint first_some {A} (candidates : list (option A)) : option A :=
  match candidates with
  | [] => None
  | Some a :: _ => Some a
  | None :: rest => first_some rest
  end.

(** The candidates of a frame, each as it fires taken alone: the wink
    check, then the double-blink, long-blink and head-turn checks behind
    the cooldown and rearm gate. A frame that ends before the trigger
    checks has none. *)
Definition candidates (config : Config) (s : Engine) (inp : FrameInput)
  : list (option Trigger) :=
  match enterFrame config s inp with
  | inl _ => []
  | inr (s1, r) =>
      let v := frameLocals config s1 r (dateNow inp) in
      let winkTriggered :=
        snd (winkMachine v (winkState s1) (winkStartTime s1)) in
      let history := snd (blinkMachine v (blinkState s1) (blinkHistory s1)) in
      let state := headMachine config v (headTurnState s1) in
      let gate := negb (inCooldown v) && rearmReady s1 in
      [ winkTrigger config v winkTriggered;
        if gate then doubleBlinkTrigger config v history else None;
        if gate then longBlinkTrigger config v history else None;
        if gate
        then fst (fst (headTurnTrigger config v state (lastHeadTurnTrigger s1)))
        else None ]
  end.

(** [winkTriggered] of a frame, if the frame gets that far. *)
Definition winkCandidate (config : Config) (s : Engine) (inp : FrameInput)
  : option Gesture :=
  match enterFrame config s inp with
  | inl _ => None
  | inr (s1, r) =>
      snd (winkMachine (frameLocals config s1 r (dateNow inp))
                       (winkState s1) (winkStartTime s1))
  end.

(** Each emission comes at least [c] after the one before, the first one
    at least [c] after [last]. *)
Fixpoint spaced (c last : Z) (es : list Emission) : Prop :=
  match es with
  | [] => True
  | e :: rest => (c <= emittedAt e - last)%Z /\ spaced c (emittedAt e) rest
  end.

Definition is_head_turn (g : Gesture) : bool :=
  match g with
  | head_left | head_right => true
  | _ => false
  end.

Definition is_eye_gesture (g : Gesture) : bool := negb (is_head_turn g).






(** The sign bit of a number is clear: [+0], a positive number,
    [+Infinity], or NaN. *)
Definition unsigned (x : SpecFloat.spec_float) : Prop :=
  match x with
  | SpecFloat.S754_nan => True
  | SpecFloat.S754_zero s | SpecFloat.S754_infinity s
  | SpecFloat.S754_finite s _ _ => s = false
  end.




(** The clock of a calibration run reaches the end of the window. *)
Definition windowEnds (startTime : Z) (ticks : list CalibrationTick) : Prop :=
  exists t, In t ticks /\ (calibrationDuration <= tickTime t - startTime)%Z.

Definition faceless (ticks : list CalibrationTick) : Prop :=
  forall t, In t ticks -> tickFace t = None.




(** The number of frames in a row, up to the end of the run, that reach
    the classification and find both eyes open, counted on from [n].
    A frame that is skipped, has no face or throws neither counts nor
    breaks the row; a frame that finds an eye not open starts it anew. *)
Fixpoint openStreak (config : Config) (s : Engine)
    (inputs : list FrameInput) (n : nat) : nat :=
  match inputs with
  | [] => n
  | inp :: rest =>
      openStreak config (fst (processFrame config s inp)) rest
        match enterFrame config s inp with
        | inl _ => n
        | inr (_, r) => if leftOpen r && rightOpen r then S n else O
        end
  end.

(** ** Scenarios *)

Module Scenario.

Import Synthetic.
Open Scope float_scope.

(** Frames every 40 ms from [t], one per eye/nose setting. *)
Fixpoint frames (t : Z) (faces : list (float * float * float))
  : list FrameInput :=
  match faces with
  | [] => []
  | (l, r, n) :: rest => frame t l r n :: frames (t + 40) rest
  end.

Definition eyes_open : float * float * float := (0.25, 0.25, 0).
Definition eyes_shut : float * float * float := (0.05, 0.05, 0).
Definition right_shut : float * float * float := (0.25, 0.05, 0).
Definition turned_right : float * float * float := (0.25, 0.25, -0.1).

(** A closed left eye in front of the freshly calibrated engine. *)
Definition closed_left_frame : FrameInput := frame 1000 0.05 0.25 0.

(** A calibration window in which no tick finds a face. *)
Definition faceless_ticks : list CalibrationTick :=
  map (fun k => mkTick (50 * Z.of_nat k) None) (seq 0 41).

(** A calibration window that begins at [t0] and finds no face. *)
Definition faceless_window (t0 : Z) : list CalibrationTick :=
  map (fun k => mkTick (t0 + 50 * Z.of_nat k) None) (seq 0 41).

(** A calibration window with the same face on every tick: wide eyes
    (aspect ratio 0.3), the head slightly turned (yaw 1.8). *)
Definition face_ticks : list CalibrationTick :=
  map (fun k => mkTick (50 * Z.of_nat k) (Some (face 0.3 0.3 (-0.02))))
      (seq 0 41).

(** Two short blinks of 200 ms, 200 ms apart. *)
Definition double_blink_frames : list FrameInput :=
  frames 10000
    (repeat eyes_open 4 ++ repeat eyes_shut 5 ++ repeat eyes_open 5
     ++ repeat eyes_shut 5 ++ repeat eyes_open 6).

(** The right eye of the image shut for 200 ms, the left one open. *)
Definition wink_frames : list FrameInput :=
  frames 10000
    (repeat eyes_open 4 ++ repeat right_shut 5 ++ repeat eyes_open 6).

Definition wink_config : Config :=
  {| onNext := true; onPrev := true; debugElement := false;
     sensitivity := 1; cooldownMs := 900;
     triggerNext := wink_left; triggerPrev := wink_right |}.

Definition head_config : Config :=
  {| onNext := true; onPrev := true; debugElement := false;
     sensitivity := 1; cooldownMs := 900;
     triggerNext := head_right; triggerPrev := head_left |}.




(** The pieces of a run with two full excursions. *)
Definition approach : list FrameInput :=
  frames 10000 [eyes_open; turned_right].
Definition first_turn : FrameInput := frame 10080 0.25 0.25 (-0.1).
Definition still_turned : list FrameInput := frames 10120 [eyes_open].
Definition back_to_center : FrameInput := frame 10160 0.25 0.25 0.
Definition at_center : list FrameInput :=
  frames 10200 [eyes_open; eyes_open; turned_right].
Definition turning_again : list FrameInput :=
  frames 10320 (repeat turned_right 17).
Definition second_turn : FrameInput := frame 11000 0.25 0.25 (-0.1).

Definition two_turns : list FrameInput :=
  approach ++ first_turn :: still_turned ++ back_to_center :: at_center
  ++ turning_again ++ [second_turn].


(** A short cooldown, the left wink bound to [next] and the right turn
    to [prev]. *)
Definition quick_config : Config :=
  {| onNext := true; onPrev := true; debugElement := false;
     sensitivity := 1; cooldownMs := 100;
     triggerNext := wink_left; triggerPrev := head_right |}.

Definition right_shut_turned : float * float * float := (0.25, 0.05, -0.1).

(** A wink that begins with a turn of the head: the right eye of the
    image shuts at 10160 while the head turns (the turn fires at 10200,
    the median of the eye history still open), stays shut until 10440 and
    is open again from 10480. The eye is classified closed from 10280 to
    10560. *)
Definition wink_after_turn : list FrameInput :=
  frames 10000
    (repeat eyes_open 4 ++ repeat right_shut_turned 3
     ++ repeat right_shut 5 ++ repeat eyes_open 3).

(** The first frame on which the eye is classified open again, 320 ms
    after it was first classified closed. *)
Definition wink_released : FrameInput := frame 10600 0.25 0.25 0.

(** An eye whose two corners coincide. *)
Definition flat_eye : Eye :=
  {| p1 := mkPoint 0.5 0.5 0; p2 := mkPoint 0.5 0.6 0;
     p3 := mkPoint 0.5 0.6 0; p4 := mkPoint 0.5 0.5 0;
     p5 := mkPoint 0.5 0.4 0; p6 := mkPoint 0.5 0.4 0 |}.

(** An eye whose six landmarks coincide. *)
Definition collapsed_eye : Eye :=
  {| p1 := mkPoint 0.5 0.5 0; p2 := mkPoint 0.5 0.5 0;
     p3 := mkPoint 0.5 0.5 0; p4 := mkPoint 0.5 0.5 0;
     p5 := mkPoint 0.5 0.5 0; p6 := mkPoint 0.5 0.5 0 |}.

(** A session that ends right after a head-turn trigger. *)
Definition running (e : Engine) : FaceControl :=
  {| session := {| faceLandmarker := true; videoElement := true;
                   stream := true; animationId := Some 1%nat;
                   isRunning := true; isPaused := false |};
     engine := e |}.

Definition stopped_after_trigger : FaceControl :=
  destroyFaceControl
    (running (after head_config initial_engine (approach ++ [first_turn]))).

(** The next session: a calibration window without a face, then a frame
    with the head turned. *)
Definition restart (m : FaceControl) : option (Result FaceControl) :=
  initFaceControl 0 faceless_ticks m.

Definition turn_on_restart : FrameInput := frame 30000 0.25 0.25 (-0.1).

End Scenario.

(** The variables that the frame leaves alone up to the declaration of
    [now] have the same values in both states. *)
Definition same_control (s s' : Engine) : Prop :=
  lastTriggerTime s' = lastTriggerTime s
  /\ blinkHistory s' = blinkHistory s
  /\ blinkState s' = blinkState s
  /\ openFrames s' = openFrames s
  /\ rearmReady s' = rearmReady s
  /\ winkState s' = winkState s
  /\ winkStartTime s' = winkStartTime s
  /\ lastWinkTrigger s' = lastWinkTrigger s
  /\ headTurnState s' = headTurnState s
  /\ lastHeadTurnTrigger s' = lastHeadTurnTrigger s
  /\ baseline s' = baseline s
  /\ noise s' = noise s.

(** What the trigger checks of a frame return: the trigger if any, the
    new [lastHeadTurnTrigger] and the new [headTurnState]. [s] is the
    state after the closure bookkeeping. *)
Definition frameTriggers (config : Config) (s : Engine) (r : Reading)
    (dateNow : Z) : option Trigger * Z * HeadTurnState :=
  let v := frameLocals config s r dateNow in
  blinkAndHeadTriggers config v (rearmReady s)
    (winkTrigger config v (snd (winkMachine v (winkState s) (winkStartTime s))))
    (snd (blinkMachine v (blinkState s) (blinkHistory s)))
    (headMachine config v (headTurnState s))
    (lastHeadTurnTrigger s).

(** The eye classification of a frame that passes the rate limiter, has
    a face and yields its three signals. *)
Definition frameReading (config : Config) (s : Engine) (inp : FrameInput)
  : option Reading :=
  if (perfNow inp - lastFrameTime s <? 1000 / BASE_THRESHOLDS.targetFps)%float
  then None
  else
    match detection inp with
    | None => None
    | Some landmarks =>
        match calculateSeparateEAR landmarks, calculateYaw landmarks with
        | Ok (leftEar, rightEar), Ok yaw =>
            Some (readEyes config
                    (pushHistories leftEar rightEar yaw
                       (set_lastFrameTime (perfNow inp) s)))
        | _, _ => None
        end
    end.

(** No eye closure has been recorded: no closure onset, no open or past
    blink, no wink under way. *)
Definition eyes_untracked (s : Engine) : Prop :=
  leftClosedSince s = None
  /\ rightClosedSince s = None
  /\ blinkState s = None
  /\ blinkHistory s = []
  /\ winkState s = none.


(** ** The rest of the module and its helpers in utils.js *)

Module JsMath.

Open Scope float_scope.

(** [Math.min(a, b)]: NaN if either argument is NaN, otherwise the
    smaller one, [-0] being smaller than [+0]. *)
Definition min (a b : float) : float :=
  if is_nan a || is_nan b then nan
  else if a <? b then a
  else if b <? a then b
  else if get_sign a then a else b.

End JsMath.

(** [clamp(num, min, max)] of utils.js *)
Definition clamp (num lo hi : float) : float :=
  JsMath.min (JsNum.max num lo) hi.

(** [calculateEAR(landmarks)], the combined ratio *)
Definition calculateEAR (landmarks : Landmarks) : Result float :=
  (ears <- calculateSeparateEAR landmarks ;;
   let '(l, r) := ears in Ok ((l + r) / 2)%float)%js.

(** [calculateMAR(landmarks)] *)
Definition calculateMAR (landmarks : Landmarks) : Result float :=
  (top <- at_index landmarks 13 ;;
   bottom <- at_index landmarks 14 ;;
   lft <- at_index landmarks 61 ;;
   rgt <- at_index landmarks 291 ;;
   let vertical := distance top bottom in
   let horizontal := distance lft rgt in
   Ok (vertical / horizontal)%float)%js.

Definition set_isPaused (b : bool) (m : FaceControl) : FaceControl :=
  {| session :=
       {| faceLandmarker := faceLandmarker (session m);
          videoElement := videoElement (session m);
          stream := stream (session m);
          animationId := animationId (session m);
          isRunning := isRunning (session m);
          isPaused := b |};
     engine := engine m |}.

(** [pauseFaceControl()] *)
Definition pauseFaceControl (m : FaceControl) : FaceControl :=
  set_isPaused true m.

(** [resumeFaceControl()] *)
Definition resumeFaceControl (m : FaceControl) : FaceControl :=
  set_isPaused false m.

(** Firings of the animation-frame callback, one per input, with the
    request identifiers [requestAnimationFrame] hands out. *)
Fixpoint loopRun (config : Config) (m : FaceControl)
    (ticks : list (FrameInput * nat)) : FaceControl * list Emission :=
  match ticks with
  | [] => (m, [])
  | (inp, requestId) :: rest =>
      let '(m1, o) := detectLoop config m inp requestId in
      let '(m2, es) := loopRun config m1 rest in
      (m2, match o with Some o' => emission inp o' | None => [] end ++ es)
  end.

(** The landmark array has an element at every index the module reads
    (the largest one is 454, the right cheek). *)
Definition wellFormed (landmarks : Landmarks) : Prop :=
  (455 <= length landmarks)%nat.


(** Both states agree on every variable but [lastFrameTime]. *)
Definition same_but_clock (s s' : Engine) : Prop :=
  same_control s s'
  /\ leftEarHistory s' = leftEarHistory s
  /\ rightEarHistory s' = rightEarHistory s
  /\ yawHistory s' = yawHistory s
  /\ leftClosedSince s' = leftClosedSince s
  /\ rightClosedSince s' = rightClosedSince s.

(** The engine is not re-armed and has counted at most [k] open frames. *)
Definition rearm_lock (k : nat) (s : Engine) : Prop :=
  rearmReady s = false /\ (openFrames s <= k)%nat.

Definition is_wink (g : Gesture) : bool :=
  match g with
  | wink_left | wink_right => true
  | _ => false
  end.

(** The moves of [headTurnState] in one call: stay, go back to the
    center, leave the center, or fire from [left] or [right]. *)
Definition head_move (old new : HeadTurnState) : bool :=
  match old, new with
  | _, center => true
  | center, _ => true
  | left, left | right, right
  | triggered_left, triggered_left | triggered_right, triggered_right => true
  | left, triggered_left | right, triggered_right => true
  | _, _ => false
  end.

(** The faces among the ticks that the calibration loop samples: those
    before the first tick whose clock reading is past the window. *)
Fixpoint facesInWindow (startTime : Z) (ticks : list CalibrationTick) : nat :=
  match ticks with
  | [] => O
  | t :: rest =>
      if (tickTime t - startTime <? calibrationDuration)%Z
      then (match tickFace t with Some _ => 1 | None => 0 end
            + facesInWindow startTime rest)%nat
      else O
  end.

Module Degenerate.

Open Scope float_scope.

(** A face with open eyes whose two cheek landmarks coincide with the
    nose: both nose-to-cheek distances are zero. *)
Definition collapsed_point (i : nat) : Point :=
  match i with
  | 234%nat | 454%nat => mkPoint 0 0 0
  | _ => Synthetic.point_of 0.25 0.25 0 i
  end.

Definition collapsed_face : Landmarks := map collapsed_point (seq 0 478).

Definition collapsed_frame (t : Z) : FrameInput :=
  {| perfNow := of_uint63 (Uint63.of_Z t);
     detection := Some collapsed_face;
     dateNow := t |}.

End Degenerate.

(** A calibration window with a face on three ticks out of four. *)
Definition calibration_ticks : list CalibrationTick :=
  [ mkTick 0 (Some (Synthetic.face 0.25 0.24 0));
    mkTick 50 None;
    mkTick 100 (Some (Synthetic.face 0.27 0.25 (-0.01)));
    mkTick 150 (Some (Synthetic.face 0.26 0.26 0.01));
    mkTick 2000 (Some (Synthetic.face 0.05 0.05 0)) ].

Definition equal_lengths (smp : Samples) (n : nat) : Prop :=
  length (leftEarSamples smp) = n
  /\ length (rightEarSamples smp) = n
  /\ length (yawSamples smp) = n
  /\ length (diffSamples smp) = n.


(** ** The first variant of the module (src/faceControl.js)

    One combined eye aspect ratio, fixed thresholds, no rate limiter, no
    wink, no rearm; [now] is declared before its first use. *)

Module Legacy.

(** [BASE_THRESHOLDS] of this variant *)
Module THRESHOLDS.
Definition blinkEarDrop : float := 0.08.
Definition longBlinkMs : Z := 350.
Definition doubleBlikWindowMs : Z := 800.
Definition mouthOpenMar : float := 0.5.
Definition headTurnDeg : float := 10.
Definition headReturnDeg : float := 5.
End THRESHOLDS.

Record Baseline := mkBaseline { ear : float; mar : float; yaw : float }.

Record Engine := mkEngine {
  lastTriggerTime : Z;
  blinkHistory : list BlinkEvent;
  earHistory : list float;
  marHistory : list float;
  yawHistory : list float;
  headTurnState : HeadTurnState;
  lastHeadTurnTrigger : Z;
  baseline : Baseline
}.

Definition default_baseline : Baseline :=
  {| ear := 0.25; mar := 0.3; yaw := 0 |}.

Definition initial_engine : Engine :=
  {| lastTriggerTime := 0; blinkHistory := [];
     earHistory := []; marHistory := []; yawHistory := [];
     headTurnState := center; lastHeadTurnTrigger := 0;
     baseline := default_baseline |}.

(** [samples.reduce((a, b) => a + b) / samples.length] behind
    [samples.length > 0]; without an initial value [reduce] starts from
    the first element. *)
Definition average (samples : list float) (otherwise : float) : float :=
  match samples with
  | [] => otherwise
  | first :: rest =>
      (fold_left (fun a b => a + b) rest first
       / JsNum.of_nat (length samples))%float
  end.

(** One tick of the calibration loop of this variant: the three sample
    arrays. *)
Definition sampleTick (face : option Landmarks)
    (acc : list float * list float * list float)
  : Result (list float * list float * list float) :=
  match face with
  | None => Ok acc
  | Some landmarks =>
      (e <- calculateEAR landmarks ;;
       m <- calculateMAR landmarks ;;
       y <- calculateYaw landmarks ;;
       let '(es, ms, ys) := acc in
       Ok (es ++ [e], ms ++ [m], ys ++ [y]))%js
  end.

Fixpoint sampleLoop (startTime : Z) (ticks : list CalibrationTick)
    (acc : list float * list float * list float)
  : option (Result (list float * list float * list float)) :=
  match ticks with
  | [] => None
  | t :: rest =>
      if (tickTime t - startTime <? calibrationDuration)%Z then
        match sampleTick (tickFace t) acc with
        | Ok acc' => sampleLoop startTime rest acc'
        | Throw e => Some (Throw e)
        end
      else Some (Ok acc)
  end.

(** [calibrateBaseline()] of this variant *)
Definition calibrateBaseline (startTime : Z) (ticks : list CalibrationTick)
    (s : Engine) : option (Result Engine) :=
  match sampleLoop startTime ticks ([], [], []) with
  | None => None
  | Some (Throw e) => Some (Throw e)
  | Some (Ok (es, ms, ys)) =>
      Some (Ok {| lastTriggerTime := lastTriggerTime s;
                  blinkHistory := blinkHistory s;
                  earHistory := earHistory s;
                  marHistory := marHistory s;
                  yawHistory := yawHistory s;
                  headTurnState := headTurnState s;
                  lastHeadTurnTrigger := lastHeadTurnTrigger s;
                  baseline :=
                    {| ear := average es (ear (baseline s));
                       mar := average ms (mar (baseline s));
                       yaw := average ys (yaw (baseline s)) |} |})
  end.

(** "Blink state machine" on the last record of [blinkHistory]:
    [blinkHistory[blinkHistory.length - 1]] is [undefined] on an empty
    array; [currentBlink.end = now] writes into the record in place. *)
Definition blinkMachine (isEyesClosed : bool) (now : Z)
    (history : list BlinkEvent) : list BlinkEvent :=
  let currentBlink := last (map Some history) None in
  if isEyesClosed then
    match currentBlink with
    | None => history ++ [mkBlink now None]
    | Some b =>
        match blinkEnd b with
        | Some _ => history ++ [mkBlink now None]
        | None => history
        end
    end
  else
    match currentBlink with
    | Some b =>
        match blinkEnd b with
        | None => removelast history ++ [mkBlink (blinkStart b) (Some now)]
        | Some _ => history
        end
    | None => history
    end.

(** "Head turn state machine" with the thresholds of this variant *)
Definition headMachine (config : Config) (yawDelta : float)
    (state : HeadTurnState) : HeadTurnState :=
  let absYaw := abs yawDelta in
  let headTurnDeg := (THRESHOLDS.headTurnDeg / sensitivity config)%float in
  if (absYaw <? THRESHOLDS.headReturnDeg)%float then center
  else if (headTurnDeg <? yawDelta)%float then
    match state with center => right | _ => state end
  else if (yawDelta <? - headTurnDeg)%float then
    match state with center => left | _ => state end
  else state.

(** A completed blink shorter than a long blink and longer than 50 ms. *)
Definition isShortBlink (b : BlinkEvent) : bool :=
  match blinkEnd b with
  | None => false
  | Some e =>
      ((e - blinkStart b <? THRESHOLDS.longBlinkMs)
       && (50 <? e - blinkStart b))%Z
  end.

Definition doubleBlinkTrigger (config : Config) (now : Z)
    (history : list BlinkEvent) : option Trigger :=
  let completedBlinks := filter isShortBlink history in
  if (2 <=? length completedBlinks)%nat then
    match JsNum.slice_last 2 completedBlinks with
    | [blink1; blink2] =>
        match blinkEnd blink1, blinkEnd blink2 with
        | Some end1, Some end2 =>
            let timeBetweenBlinks := (blinkStart blink2 - end1)%Z in
            if ((now - end2 <? 300)
                && (timeBetweenBlinks <? THRESHOLDS.doubleBlikWindowMs))%Z
            then bindingFor config double_blink
            else None
        | _, _ => None
        end
    | _ => None
    end
  else None.

Definition isLongBlink (now : Z) (b : BlinkEvent) : bool :=
  match blinkEnd b with
  | None => false
  | Some e =>
      ((THRESHOLDS.longBlinkMs <=? e - blinkStart b) && (now - e <? 300))%Z
  end.

Definition longBlinkTrigger (config : Config) (now : Z)
    (history : list BlinkEvent) : option Trigger :=
  if (0 <? length (filter (isLongBlink now) history))%nat
  then bindingFor config long_blink
  else None.

Definition headTurnTrigger (config : Config) (now : Z)
    (state : HeadTurnState) (lastHead : Z)
  : option Trigger * Z * HeadTurnState :=
  let elapsed := (cooldownMs config <? now - lastHead)%Z in
  match state with
  | right =>
      if elapsed then
        match bindingFor config head_right with
        | Some t => (Some t, now, triggered_right)
        | None => (None, lastHead, state)
        end
      else (None, lastHead, state)
  | left =>
      if elapsed then
        match bindingFor config head_left with
        | Some t => (Some t, now, triggered_left)
        | None => (None, lastHead, state)
        end
      else (None, lastHead, state)
  | _ => (None, lastHead, state)
  end.

(** The block under [if (!inCooldown)]: the trigger, and the new
    [lastHeadTurnTrigger] and [headTurnState]. *)
Definition detectTriggers (config : Config) (now : Z) (inCooldown : bool)
    (history : list BlinkEvent) (state : HeadTurnState) (lastHead : Z)
  : option Trigger * Z * HeadTurnState :=
  if negb inCooldown then
    match doubleBlinkTrigger config now history with
    | Some t => (Some t, lastHead, state)
    | None =>
        match longBlinkTrigger config now history with
        | Some t => (Some t, lastHead, state)
        | None => headTurnTrigger config now state lastHead
        end
    end
  else (None, lastHead, state).

(** [isEyesClosed] for the smoothed ratio of a frame. *)
Definition eyesClosed (config : Config) (s : Engine) (smoothEar : float)
  : bool :=
  (THRESHOLDS.blinkEarDrop / sensitivity config
   <? ear (baseline s) - smoothEar)%float.

(** [processFrame()] of this variant. The debug display is left out. *)
Definition processFrame (config : Config) (s : Engine) (inp : FrameInput)
  : Engine * Outcome :=
  match detection inp with
  | None => (s, NoFace)
  | Some landmarks =>
      match calculateEAR landmarks with
      | Throw e => (s, Threw e)
      | Ok e =>
      match calculateMAR landmarks with
      | Throw err => (s, Threw err)
      | Ok m =>
      match calculateYaw landmarks with
      | Throw err => (s, Threw err)
      | Ok y =>
          let earHistory1 := push_limited 10 (earHistory s) e in
          let marHistory1 := push_limited 10 (marHistory s) m in
          let yawHistory1 := push_limited 10 (yawHistory s) y in
          let smoothEar := movingAverage earHistory1 5 in
          let smoothYaw := movingAverage yawHistory1 5 in
          let isEyesClosed := eyesClosed config s smoothEar in
          let now := dateNow inp in
          let inCooldown := (now - lastTriggerTime s <? cooldownMs config)%Z in
          let history1 := blinkMachine isEyesClosed now (blinkHistory s) in
          let history2 :=
            filter (fun b => (now - blinkStart b <? 3000)%Z) history1 in
          let yawDelta := (smoothYaw - yaw (baseline s))%float in
          let state1 := headMachine config yawDelta (headTurnState s) in
          let '(trig, lastHead1, state2) :=
            detectTriggers config now inCooldown history2 state1
                           (lastHeadTurnTrigger s) in
          ({| lastTriggerTime :=
                match trig with Some _ => now | None => lastTriggerTime s end;
              blinkHistory :=
                match trig with Some _ => [] | None => history2 end;
              earHistory := earHistory1;
              marHistory := marHistory1;
              yawHistory := yawHistory1;
              headTurnState := state2;
              lastHeadTurnTrigger := lastHead1;
              baseline := baseline s |},
           Processed trig)
      end end end
  end.

Fixpoint run (config : Config) (s : Engine) (inputs : list FrameInput)
  : Engine * list Emission :=
  match inputs with
  | [] => (s, [])
  | inp :: rest =>
      let '(s1, o) := processFrame config s inp in
      let '(s2, es) := run config s1 rest in
      (s2, emission inp o ++ es)
  end.

(** The module-level variables of this variant but [config]. *)
Record FaceControl := mkFaceControl {
  session : Session;
  engine : Engine
}.

(** [destroyFaceControl()] of this variant *)
Definition destroyFaceControl (m : FaceControl) : FaceControl :=
  {| session := initial_session;
     engine :=
       {| lastTriggerTime := 0;
          blinkHistory := [];
          earHistory := [];
          marHistory := [];
          yawHistory := [];
          headTurnState := center;
          lastHeadTurnTrigger := 0;
          baseline := baseline (engine m) |} |}.

(** Two blinks of 120 ms, 160 ms apart, in frames 40 ms apart. *)
Definition double_blink_frames : list FrameInput :=
  Scenario.frames 10000
    (repeat Scenario.eyes_open 6 ++ repeat Scenario.eyes_shut 3
     ++ repeat Scenario.eyes_open 4 ++ repeat Scenario.eyes_shut 3
     ++ repeat Scenario.eyes_open 6).

(** The same double blink twice, two seconds apart. *)
Definition two_double_blinks : list FrameInput :=
  double_blink_frames
  ++ Scenario.frames 12000
       (repeat Scenario.eyes_open 6 ++ repeat Scenario.eyes_shut 3
        ++ repeat Scenario.eyes_open 4 ++ repeat Scenario.eyes_shut 3
        ++ repeat Scenario.eyes_open 6).

End Legacy.

(** * Properties *)

(** ** The embedding on sample inputs *)

Example median_odd : median [0.3; 0.1; 0.2]%float = 0.2%float.
Proof. vm_compute. reflexivity. Qed.

Example median_even : median [0.3; 0.1; 0.2; 0.4]%float = 0.25%float.
Proof. vm_compute. reflexivity. Qed.

Example movingAverage_window : movingAverage [1; 2; 3; 4]%float 3 = 3%float.
Proof. vm_compute. reflexivity. Qed.

Example stddev_single : stddev [0.25%float] = 0%float.
Proof. vm_compute. reflexivity. Qed.

Example synthetic_signals :
  calculateSeparateEAR (Synthetic.face 0.25 0.05 (-0.1)) = Ok (0.25, 0.05)%float
  /\ calculateYaw (Synthetic.face 0.25 0.05 (-0.1))
     = Ok 9.0000000000000036%float.
Proof. split; vm_compute; reflexivity. Qed.

Example short_frame_is_a_type_error :
  snd (processFrame default_config initial_engine
         (mkInput 1000 (Some (firstn 400 (Synthetic.face 0.25 0.25 0))) 1000))
  = Threw TypeError.
Proof. vm_compute. reflexivity. Qed.

Example open_eyes_frame_completes :
  snd (processFrame default_config initial_engine
         (Synthetic.frame 1000 0.25 0.25 0))
  = Processed None.
Proof. vm_compute. reflexivity. Qed.

Example too_soon_is_skipped :
  outcomes default_config initial_engine
    [Synthetic.frame 1000 0.25 0.25 0; Synthetic.frame 1020 0.25 0.25 0;
     Synthetic.no_face 1040]
  = [Processed None; Skipped; NoFace].
Proof. vm_compute. reflexivity. Qed.

Example two_turns_fire_twice :
  snd (run Scenario.head_config initial_engine Scenario.two_turns)
  = [mkEmission 10080 (mkTrigger next head_right);
     mkEmission 11000 (mkTrigger next head_right)].
Proof. vm_compute. reflexivity. Qed.

(** ** Degenerate numeric input *)

Section FloatFacts.

Open Scope float_scope.

Lemma SFeqb_zero_inv x :
  SpecFloat.SFeqb x (SpecFloat.S754_zero false) = true ->
  exists s, x = SpecFloat.S754_zero s.
Proof.
  destruct x as [s | s | | s m e]; cbn.
  - intros _. now exists s.
  - destruct s; discriminate.
  - discriminate.
  - destruct s; discriminate.
Qed.

Lemma is_zero_inv h : is_zero h = true -> exists s, Prim2SF h = SpecFloat.S754_zero s.
Proof.
  unfold is_zero. rewrite FloatAxioms.eqb_spec. apply SFeqb_zero_inv.
Qed.

Lemma is_zero_SF x s : Prim2SF x = SpecFloat.S754_zero s -> is_zero x = true.
Proof.
  intros H. unfold is_zero. rewrite FloatAxioms.eqb_spec, H. reflexivity.
Qed.

Lemma SFcompare_refl x :
  x <> SpecFloat.S754_nan -> SpecFloat.SFcompare x x = Some Eq.
Proof.
  destruct x as [s | s | | s m e]; cbn; intros H.
  - reflexivity.
  - now destruct s.
  - congruence.
  - destruct s; rewrite Z.compare_refl;
      change (Pos.compare_cont Eq m m) with (Pos.compare m m);
      now rewrite Pos.compare_refl.
Qed.

Lemma is_nan_SF x : is_nan x = true <-> Prim2SF x = SpecFloat.S754_nan.
Proof.
  unfold is_nan. rewrite FloatAxioms.eqb_spec. unfold SpecFloat.SFeqb. split.
  - intros H. destruct (Prim2SF x) eqn:Hx; try reflexivity;
      rewrite SFcompare_refl in H by discriminate; discriminate.
  - intros ->. reflexivity.
Qed.

Lemma is_finite_nan r : Prim2SF r = SpecFloat.S754_nan -> is_finite r = false.
Proof.
  intros H. unfold is_finite, is_nan. rewrite FloatAxioms.eqb_spec, H. reflexivity.
Qed.

Lemma is_finite_infinity r s :
  Prim2SF r = SpecFloat.S754_infinity s -> is_finite r = false.
Proof.
  intros H. unfold is_finite, is_infinity.
  rewrite (FloatAxioms.eqb_spec (abs r)), abs_spec, H. cbn.
  now rewrite orb_true_r.
Qed.

(** Dividing by a product with a zero factor never yields a finite
    number. *)
Lemma div_by_zero_width x h :
  is_zero h = true -> is_finite (x / (2 * h)) = false.
Proof.
  intros Hz. destruct (is_zero_inv h Hz) as [s Hs].
  assert (Hm : Prim2SF (2 * h) = SpecFloat.S754_zero s).
  { rewrite mul_spec, Hs. reflexivity. }
  pose proof (div_spec x (2 * h)) as Hd. rewrite Hm in Hd.
  destruct (Prim2SF x) as [sx | sx | | sx mx ex] eqn:Hx; cbn in Hd.
  - now apply is_finite_nan.
  - now apply is_finite_infinity in Hd.
  - now apply is_finite_nan.
  - now apply is_finite_infinity in Hd.
Qed.

Lemma binary_round_aux_unsigned mx ex lx :
  unsigned (SpecFloat.binary_round_aux prec emax false mx ex lx).
Proof.
  unfold SpecFloat.binary_round_aux.
  destruct (SpecFloat.shr_fexp prec emax mx ex lx) as [mrs e'].
  destruct (SpecFloat.shr_fexp prec emax _ e' SpecFloat.loc_Exact) as [mrs2 e2].
  destruct (SpecFloat.shr_m mrs2); cbn; auto.
  destruct (_ <=? _)%Z; reflexivity.
Qed.

Lemma SFmul_self_unsigned x : unsigned (SpecFloat.SFmul prec emax x x).
Proof.
  destruct x as [s | s | | s m e]; cbn [SpecFloat.SFmul unsigned];
    try (destruct s; reflexivity); auto.
  replace (xorb s s) with false by (destruct s; reflexivity).
  apply binary_round_aux_unsigned.
Qed.

Lemma SFadd_unsigned x y :
  unsigned x -> unsigned y -> unsigned (SpecFloat.SFadd prec emax x y).
Proof.
  destruct x as [sx | sx | | sx mx ex], y as [sy | sy | | sy my ey];
    cbn [unsigned]; intros Hx Hy; subst; cbn [SpecFloat.SFadd unsigned]; auto.
  cbn [SpecFloat.cond_Zopp Z.add SpecFloat.binary_normalize].
  unfold SpecFloat.binary_round.
  destruct (SpecFloat.shl_align _ _ _) as [mz ez].
  apply binary_round_aux_unsigned.
Qed.

Lemma SFsqrt_unsigned x :
  unsigned x -> unsigned (SpecFloat.SFsqrt prec emax x).
Proof.
  destruct x as [s | s | | s m e]; cbn [unsigned]; intros Hx; subst;
    cbn [SpecFloat.SFsqrt unsigned]; auto.
  destruct (SpecFloat.SFsqrt_core_binary prec emax (Z.pos m) e) as [[mz ez] lz].
  apply binary_round_aux_unsigned.
Qed.

Lemma sq_unsigned v : unsigned (Prim2SF (JsNum.sq v)).
Proof. unfold JsNum.sq. rewrite mul_spec. apply SFmul_self_unsigned. Qed.

(** A distance is never negative, not even [-0]. *)
Lemma distance_unsigned a b : unsigned (Prim2SF (distance a b)).
Proof.
  unfold distance. rewrite sqrt_spec. apply SFsqrt_unsigned.
  rewrite !add_spec. repeat apply SFadd_unsigned; apply sq_unsigned.
Qed.

(** Non-negative vertical extent over a width of [+0]: [0 / 0] and
    [NaN / 0] are NaN, everything else is [+Infinity]. *)
Lemma div_by_unsigned_zero v h :
  unsigned (Prim2SF v) -> unsigned (Prim2SF h) -> is_zero h = true ->
  if is_nan v || is_zero v
  then is_nan (v / (2 * h)) = true
  else v / (2 * h) = infinity.
Proof.
  intros Hv Hh Hz. destruct (is_zero_inv h Hz) as [s Hs].
  rewrite Hs in Hh. cbn in Hh. subst s.
  assert (Hm : Prim2SF (2 * h) = SpecFloat.S754_zero false).
  { rewrite mul_spec, Hs. reflexivity. }
  pose proof (div_spec v (2 * h)) as Hd. rewrite Hm in Hd.
  destruct (Prim2SF v) as [sx | sx | | sx mx ex] eqn:Hx;
    cbn in Hv; subst; cbn in Hd.
  - rewrite (is_zero_SF _ _ Hx), orb_true_r. now apply is_nan_SF.
  - assert (Hn : is_nan v = false).
    { destruct (is_nan v) eqn:E; [| reflexivity].
      apply is_nan_SF in E. congruence. }
    assert (Hnz : is_zero v = false).
    { destruct (is_zero v) eqn:E; [| reflexivity].
      apply is_zero_inv in E. destruct E as [s E]. congruence. }
    rewrite Hn, Hnz. cbn [orb].
    rewrite <- (SF2Prim_Prim2SF (v / (2 * h))), Hd. reflexivity.
  - assert (Hn : is_nan v = true) by now apply is_nan_SF.
    rewrite Hn. cbn [orb]. now apply is_nan_SF.
  - assert (Hn : is_nan v = false).
    { destruct (is_nan v) eqn:E; [| reflexivity].
      apply is_nan_SF in E. congruence. }
    assert (Hnz : is_zero v = false).
    { destruct (is_zero v) eqn:E; [| reflexivity].
      apply is_zero_inv in E. destruct E as [s E]. congruence. }
    rewrite Hn, Hnz. cbn [orb].
    rewrite <- (SF2Prim_Prim2SF (v / (2 * h))), Hd. reflexivity.
Qed.

End FloatFacts.

(** C6, as stated, fails: an eye whose corners coincide has a zero
    horizontal width, and [eyeAspectRatio] answers [Infinity] for it, not a
    finite default such as 0. *)
Lemma flat_eye_ratio_is_infinite :
  is_zero (distance (p1 Scenario.flat_eye) (p4 Scenario.flat_eye)) = true
  /\ eyeAspectRatio Scenario.flat_eye = infinity
  /\ is_finite (eyeAspectRatio Scenario.flat_eye) = false.
Proof. repeat split; vm_compute; reflexivity. Qed.

(** C6, amended: on an empty history [mean], [stddev], [median] and
    [movingAverage] return 0. For an eye of zero horizontal width
    [eyeAspectRatio] raises nothing and returns a value that is not
    finite: NaN when the sum of its two vertical distances is zero or NaN,
    [+Infinity] in every other case. *)
Theorem degenerate_inputs (eye : Eye) (windowSize : nat) :
  is_zero (distance (p1 eye) (p4 eye)) = true ->
  let vertical :=
    (distance (p2 eye) (p6 eye) + distance (p3 eye) (p5 eye))%float in
  mean [] = 0%float /\ stddev [] = 0%float /\ median [] = 0%float
  /\ movingAverage [] windowSize = 0%float
  /\ is_finite (eyeAspectRatio eye) = false
  /\ (is_nan vertical || is_zero vertical = true ->
      is_nan (eyeAspectRatio eye) = true)
  /\ (is_nan vertical || is_zero vertical = false ->
      eyeAspectRatio eye = infinity).
Proof.
  intros Hz vertical. repeat (split; [reflexivity |]).
  split; [apply (div_by_zero_width vertical _ Hz) |].
  pose proof (div_by_unsigned_zero vertical (distance (p1 eye) (p4 eye))) as Hd.
  assert (Hv : unsigned (Prim2SF vertical)).
  { unfold vertical. rewrite add_spec.
    apply SFadd_unsigned; apply distance_unsigned. }
  specialize (Hd Hv (distance_unsigned _ _) Hz).
  unfold eyeAspectRatio. fold vertical.
  destruct (is_nan vertical || is_zero vertical);
    split; intros H; congruence.
Qed.

Lemma degenerate_inputs_witness :
  is_zero (distance (p1 Scenario.flat_eye) (p4 Scenario.flat_eye)) = true
  /\ eyeAspectRatio Scenario.flat_eye = infinity
  /\ is_nan (eyeAspectRatio Scenario.collapsed_eye) = true.
Proof.
  split; [vm_compute; reflexivity |].
  split.
  - apply (degenerate_inputs Scenario.flat_eye 3); vm_compute; reflexivity.
  - apply (degenerate_inputs Scenario.collapsed_eye 3); vm_compute; reflexivity.
Defined.

(** ** Calibration without a face *)

Lemma sampleLoop_faceless startTime ticks :
  faceless ticks -> windowEnds startTime ticks ->
  forall acc, sampleLoop startTime ticks acc = Some (Ok acc).
Proof.
  induction ticks as [| t rest IH]; intros Hf [t0 [Hin Hend]] acc.
  - destruct Hin.
  - cbn [sampleLoop].
    destruct (tickTime t - startTime <? calibrationDuration)%Z eqn:Hlt.
    + rewrite (Hf t (or_introl eq_refl)). cbn [sampleTick].
      apply IH.
      * intros t' Ht'. apply Hf. now right.
      * destruct Hin as [-> | Hin].
        -- apply Z.ltb_lt in Hlt. lia.
        -- exists t0. now split.
    + reflexivity.
Qed.

Lemma setBaselines_no_samples s : setBaselines no_samples s = s.
Proof. destruct s as [? ? ? ? ? ? ? ? ? ? ? ? ? ? ? ? [? ? ?] [? ? ? ?]]. reflexivity. Qed.

(** C5, as stated, fails: a first session calibrates on a face, it is
    stopped, and the calibration window of the next session finds no
    face. [calibrateBaseline] returns normally, but the baseline and the
    noise estimate are those of the first session (eye baselines above
    0.25, yaw baseline above 0, eye noise below 0.02), not the built-in
    defaults: nothing has reset them. *)
Lemma faceless_restart_keeps_old_baseline :
  faceless (Scenario.faceless_window 60000)
  /\ windowEnds 60000 (Scenario.faceless_window 60000)
  /\ exists first second,
       initFaceControl 0 Scenario.face_ticks initial_module = Some (Ok first)
       /\ calibrateBaseline 60000 (Scenario.faceless_window 60000)
            (engine (destroyFaceControl first)) = Some (Ok second)
       /\ (0.25 <? bLeftEar (baseline second))%float = true
       /\ (0.25 <? bRightEar (baseline second))%float = true
       /\ (0 <? bYaw (baseline second))%float = true
       /\ (nLeftEar (noise second) <? 0.02)%float = true
       /\ baseline second <> default_baseline
       /\ noise second <> default_noise.
Proof.
  split.
  { intros t Ht. unfold Scenario.faceless_window in Ht.
    apply in_map_iff in Ht. destruct Ht as [k [<- _]]. reflexivity. }
  split.
  { exists (mkTick 62000 None). split; [| vm_compute; discriminate].
    unfold Scenario.faceless_window. apply in_map_iff.
    exists 40%nat. split; [reflexivity |]. apply in_seq. lia. }
  eexists. eexists.
  split; [vm_compute; reflexivity |].
  split; [vm_compute; reflexivity |].
  repeat (split; [vm_compute; reflexivity |]).
  split; intros H.
  - apply (f_equal (fun b => (0 <? bYaw b)%float)) in H.
    vm_compute in H. discriminate.
  - apply (f_equal (fun n => (nLeftEar n <? 0.02)%float)) in H.
    vm_compute in H. discriminate.
Qed.

(** C5, amended: when no tick of the calibration window finds a face and
    the clock reaches the end of the window, [calibrateBaseline] returns
    without an exception and leaves the engine, with its baseline and its
    noise estimate, exactly as it was when the window began; a tick without
    a face adds nothing to the samples. Started from the module's initial
    state, that is the baseline [leftEar = rightEar = 0.25], [yaw = 0] and
    the noise estimate 0.02, 0.02, 0.02, 0.5. *)
Theorem calibration_without_face (startTime : Z) (ticks : list CalibrationTick)
    (s : Engine) :
  faceless ticks -> windowEnds startTime ticks ->
  calibrateBaseline startTime ticks s = Some (Ok s)
  /\ sampleLoop startTime ticks no_samples = Some (Ok no_samples)
  /\ (forall acc, sampleTick None acc = Ok acc)
  /\ calibrateBaseline startTime ticks initial_engine = Some (Ok initial_engine)
  /\ baseline initial_engine = mkBaseline 0.25 0.25 0
  /\ noise initial_engine = mkNoise 0.02 0.02 0.02 0.5.
Proof.
  intros Hf He. pose proof (sampleLoop_faceless _ _ Hf He no_samples) as Hl.
  unfold calibrateBaseline. rewrite Hl, !setBaselines_no_samples.
  repeat split; reflexivity.
Qed.

Lemma calibration_without_face_witness :
  calibrateBaseline 60000 (Scenario.faceless_window 60000)
    (after Scenario.head_config initial_engine Scenario.two_turns)
  = Some (Ok (after Scenario.head_config initial_engine Scenario.two_turns)).
Proof.
  apply (calibration_without_face 60000 (Scenario.faceless_window 60000)).
  - intros t Ht. unfold Scenario.faceless_window in Ht.
    apply in_map_iff in Ht. destruct Ht as [k [<- _]]. reflexivity.
  - exists (mkTick 62000 None). split; [| vm_compute; discriminate].
    unfold Scenario.faceless_window. apply in_map_iff.
    exists 40%nat. split; [reflexivity |]. apply in_seq. lia.
Defined.

(** ** The shape of a frame *)

Lemma trackClosure_ok closed since since' :
  trackClosure closed since = Ok since' ->
  (closed = true -> since <> None /\ since' = since)
  /\ (closed = false -> since' = None).
Proof.
  destruct closed, since; cbn; intros H; inversion H; subst;
    split; intros; try discriminate; try split; congruence.
Qed.

Lemma trackClosure_unset closed :
  trackClosure closed None
  = if closed then Throw ReferenceError else Ok None.
Proof. destruct closed; reflexivity. Qed.

Lemma enterFrame_early config s inp s' o :
  enterFrame config s inp = inl (s', o) ->
  same_control s s' /\ trigger_of o = None.
Proof.
  unfold enterFrame.
  destruct (_ <? _)%float.
  { intros H; inversion H; subst. unfold same_control. repeat split; reflexivity. }
  destruct (detection inp) as [landmarks |].
  2:{ intros H; inversion H; subst. unfold same_control. repeat split; reflexivity. }
  destruct (calculateSeparateEAR landmarks) as [[leftEar rightEar] | e].
  2:{ intros H; inversion H; subst. unfold same_control. repeat split; reflexivity. }
  destruct (calculateYaw landmarks) as [yaw | e].
  2:{ intros H; inversion H; subst. unfold same_control. repeat split; reflexivity. }
  destruct (trackClosure _ _) as [since | e].
  2:{ intros H; inversion H; subst. unfold same_control. repeat split; reflexivity. }
  destruct (trackClosure _ _) as [since2 | e].
  { discriminate. }
  intros H; inversion H; subst. unfold same_control. repeat split; reflexivity.
Qed.

Lemma enterFrame_on config s inp s1 r :
  enterFrame config s inp = inr (s1, r) ->
  same_control s s1.
Proof.
  unfold enterFrame.
  destruct (_ <? _)%float; [discriminate |].
  destruct (detection inp) as [landmarks |]; [| discriminate].
  destruct (calculateSeparateEAR landmarks) as [[leftEar rightEar] | e];
    [| discriminate].
  destruct (calculateYaw landmarks) as [yaw | e]; [| discriminate].
  destruct (trackClosure _ _) as [since | e]; [| discriminate].
  destruct (trackClosure _ _) as [since2 | e]; [| discriminate].
  intros H; inversion H; subst. unfold same_control. repeat split; reflexivity.
Qed.

(** The projections of [finishFrame] that the properties use. *)
Lemma finishFrame_outcome config s r t :
  snd (finishFrame config s r t)
  = Processed (fst (fst (frameTriggers config s r t))).
Proof.
  unfold finishFrame, frameTriggers.
  destruct (winkMachine _ _ _) as [[ws wst] wt].
  destruct (blinkMachine _ _ _) as [bs bh]. cbn [snd].
  destruct (blinkAndHeadTriggers _ _ _ _ _ _ _) as [[trig lh] hs].
  destruct trig; destruct (rearm _ _ _); reflexivity.
Qed.

Lemma finishFrame_headTurnState config s r t :
  headTurnState (fst (finishFrame config s r t))
  = snd (frameTriggers config s r t).
Proof.
  unfold finishFrame, frameTriggers.
  destruct (winkMachine _ _ _) as [[ws wst] wt].
  destruct (blinkMachine _ _ _) as [bs bh]. cbn [snd].
  destruct (blinkAndHeadTriggers _ _ _ _ _ _ _) as [[trig lh] hs].
  destruct trig; destruct (rearm _ _ _); reflexivity.
Qed.

Lemma finishFrame_lastTriggerTime config s r t :
  lastTriggerTime (fst (finishFrame config s r t))
  = match fst (fst (frameTriggers config s r t)) with
    | Some _ => t
    | None => lastTriggerTime s
    end.
Proof.
  unfold finishFrame, frameTriggers.
  destruct (winkMachine _ _ _) as [[ws wst] wt].
  destruct (blinkMachine _ _ _) as [bs bh]. cbn [snd].
  destruct (blinkAndHeadTriggers _ _ _ _ _ _ _) as [[trig lh] hs].
  destruct trig; destruct (rearm _ _ _); reflexivity.
Qed.

(** ** Runs *)

Lemma run_app config inputs1 inputs2 :
  forall s,
    run config s (inputs1 ++ inputs2)
    = (after config (after config s inputs1) inputs2,
       snd (run config s inputs1)
       ++ snd (run config (after config s inputs1) inputs2)).
Proof.
  unfold after.
  induction inputs1 as [| inp rest IH]; intros s.
  - cbn. now destruct (run config s inputs2).
  - cbn [app run]. destruct (processFrame config s inp) as [s1 o].
    rewrite IH. destruct (run config s1 rest) as [s2 es]. cbn [fst snd].
    now rewrite app_assoc.
Qed.

Lemma after_app config s inputs1 inputs2 :
  after config s (inputs1 ++ inputs2)
  = after config (after config s inputs1) inputs2.
Proof. unfold after at 1. now rewrite run_app. Qed.

Lemma after_cons config s inp inputs :
  after config s (inp :: inputs)
  = after config (fst (processFrame config s inp)) inputs.
Proof.
  unfold after. cbn [run]. destruct (processFrame config s inp) as [s1 o].
  cbn [fst]. now destruct (run config s1 inputs).
Qed.

Lemma run_cons_emissions config s inp inputs :
  snd (run config s (inp :: inputs))
  = emission inp (snd (processFrame config s inp))
    ++ snd (run config (fst (processFrame config s inp)) inputs).
Proof.
  cbn [run]. destruct (processFrame config s inp) as [s1 o].
  cbn [fst snd]. now destruct (run config s1 inputs).
Qed.

Lemma after_nil config s : after config s [] = s.
Proof. reflexivity. Qed.


(** ** Cooldown between triggers *)

Lemma winkTrigger_cooldown config v w t :
  winkTrigger config v w = Some t -> inCooldown v = false.
Proof.
  unfold winkTrigger. destruct w; [| discriminate].
  destruct (inCooldown v); [discriminate | reflexivity].
Qed.

Lemma frameTriggers_cooldown config s r t tr :
  fst (fst (frameTriggers config s r t)) = Some tr ->
  (cooldownMs config <= t - lastTriggerTime s)%Z.
Proof.
  unfold frameTriggers, blinkAndHeadTriggers.
  set (v := frameLocals config s r t).
  assert (Hc : inCooldown v = (t - lastTriggerTime s <? cooldownMs config)%Z)
    by reflexivity.
  destruct (inCooldown v) eqn:Hin.
  - cbn [negb andb fst]. intros Hw.
    apply winkTrigger_cooldown in Hw. congruence.
  - intros _. symmetry in Hc. apply Z.ltb_ge in Hc. exact Hc.
Qed.

Lemma processFrame_spacing config s inp :
  match trigger_of (snd (processFrame config s inp)) with
  | Some _ =>
      (cooldownMs config <= dateNow inp - lastTriggerTime s)%Z
      /\ lastTriggerTime (fst (processFrame config s inp)) = dateNow inp
  | None =>
      lastTriggerTime (fst (processFrame config s inp)) = lastTriggerTime s
  end.
Proof.
  unfold processFrame.
  destruct (enterFrame config s inp) as [[s' o] | [s1 r]] eqn:He.
  - apply enterFrame_early in He. destruct He as [Hs Ho].
    cbn [snd fst]. rewrite Ho. apply Hs.
  - apply enterFrame_on in He. destruct He as [Hl _].
    rewrite finishFrame_outcome, finishFrame_lastTriggerTime. cbn [trigger_of].
    destruct (fst (fst (frameTriggers config s1 r (dateNow inp)))) eqn:Ht.
    + apply frameTriggers_cooldown in Ht. rewrite Hl in Ht. now split.
    + exact Hl.
Qed.

Lemma run_spaced config inputs :
  forall s, spaced (cooldownMs config) (lastTriggerTime s)
                   (snd (run config s inputs)).
Proof.
  induction inputs as [| inp rest IH]; intros s; [exact I |].
  cbn [run].
  pose proof (processFrame_spacing config s inp) as Hstep.
  destruct (processFrame config s inp) as [s1 o]. cbn [fst snd] in Hstep.
  specialize (IH s1). destruct (run config s1 rest) as [s2 es].
  cbn [snd] in *. unfold emission.
  destruct o as [| | [t |] | e]; cbn [trigger_of app] in *;
    try (rewrite <- Hstep; exact IH).
  destruct Hstep as [Hc Hl]. cbn [spaced emittedAt]. split; [exact Hc |].
  rewrite <- Hl. exact IH.
Qed.

Lemma spaced_later c last es :
  (0 <= c)%Z -> spaced c last es ->
  forall e, In e es -> (c <= emittedAt e - last)%Z.
Proof.
  intros Hc. revert last.
  induction es as [| e0 rest IH]; intros last Hs e Hin; [destruct Hin |].
  destruct Hs as [H0 Hrest]. destruct Hin as [<- | Hin]; [exact H0 |].
  specialize (IH _ Hrest e Hin). lia.
Qed.

Lemma spaced_pairwise c last es :
  (0 <= c)%Z -> spaced c last es ->
  forall i j ei ej, (i < j)%nat ->
    nth_error es i = Some ei -> nth_error es j = Some ej ->
    (c <= emittedAt ej - emittedAt ei)%Z.
Proof.
  intros Hc. revert last.
  induction es as [| e0 rest IH]; intros last Hs i j ei ej Hij Hi Hj.
  - destruct i; discriminate.
  - destruct Hs as [_ Hrest]. destruct j as [| j]; [lia |].
    cbn [nth_error] in Hj. destruct i as [| i].
    + cbn in Hi. inversion Hi; subst.
      apply (spaced_later c _ rest Hc Hrest). eapply nth_error_In; eauto.
    + cbn [nth_error] in Hi. apply (IH _ Hrest i j); auto. lia.
Qed.

(** C2: whatever the frames and the configuration (with [cooldownMs >= 0]),
    any two triggers emitted in a run are at least [cooldownMs] apart: the
    later one's timestamp minus the earlier one's is at least
    [cooldownMs]. *)
Theorem triggers_respect_cooldown (config : Config) (s : Engine)
    (inputs : list FrameInput) (i j : nat) (ei ej : Emission) :
  (0 <= cooldownMs config)%Z ->
  (i < j)%nat ->
  nth_error (snd (run config s inputs)) i = Some ei ->
  nth_error (snd (run config s inputs)) j = Some ej ->
  (cooldownMs config <= emittedAt ej - emittedAt ei)%Z.
Proof.
  intros Hc. apply (spaced_pairwise _ (lastTriggerTime s)); [exact Hc |].
  apply run_spaced.
Qed.

Lemma triggers_respect_cooldown_witness :
  (cooldownMs Scenario.head_config
   <= emittedAt (mkEmission 11000 (mkTrigger next head_right))
      - emittedAt (mkEmission 10080 (mkTrigger next head_right)))%Z.
Proof.
  apply (triggers_respect_cooldown Scenario.head_config initial_engine
           Scenario.two_turns 0 1).
  - vm_compute. discriminate.
  - apply Nat.lt_0_1.
  - vm_compute. reflexivity.
  - vm_compute. reflexivity.
Defined.

(** ** One trigger per frame, by priority *)

Lemma dispatch_at_most_one config o : (length (dispatch config o) <= 1)%nat.
Proof.
  destruct o as [| | [[d g] |] | e]; cbn; try apply Nat.le_0_l.
  destruct d; [destruct (onNext config) | destruct (onPrev config)];
    cbn; auto using Nat.le_0_l.
Qed.

Lemma emission_at_most_one inp o : (length (emission inp o) <= 1)%nat.
Proof.
  destruct o as [| | [t |] | e]; cbn; auto using Nat.le_0_l.
Qed.

Lemma frameTriggers_priority config s r t :
  let v := frameLocals config s r t in
  let gate := negb (inCooldown v) && rearmReady s in
  let history := snd (blinkMachine v (blinkState s) (blinkHistory s)) in
  fst (fst (frameTriggers config s r t))
  = first_some
      [ winkTrigger config v
          (snd (winkMachine v (winkState s) (winkStartTime s)));
        if gate then doubleBlinkTrigger config v history else None;
        if gate then longBlinkTrigger config v history else None;
        if gate
        then fst (fst (headTurnTrigger config v
                         (headMachine config v (headTurnState s))
                         (lastHeadTurnTrigger s)))
        else None ].
Proof.
  intros v gate history. subst gate.
  unfold frameTriggers, blinkAndHeadTriggers. fold v. fold history.
  destruct (winkTrigger config v _) as [tw |] eqn:Hw.
  - cbn [first_some]. rewrite andb_false_r. reflexivity.
  - rewrite andb_true_r.
    destruct (negb (inCooldown v) && rearmReady s); [| reflexivity].
    cbn [first_some].
    destruct (doubleBlinkTrigger config v history); [reflexivity |].
    destruct (longBlinkTrigger config v history); [reflexivity |].
    destruct (fst (fst (headTurnTrigger _ _ _ _))); reflexivity.
Qed.

(** C3: a call of [processFrame] emits at most one trigger and invokes at
    most one callback, and the trigger is the first, in the order wink,
    double blink, long blink, head turn, of the candidates that fire on
    the frame: a candidate fires only if none before it does. *)
Theorem one_trigger_by_priority (config : Config) (s : Engine)
    (inp : FrameInput) :
  trigger_of (snd (processFrame config s inp))
  = first_some (candidates config s inp)
  /\ (length (emission inp (snd (processFrame config s inp))) <= 1)%nat
  /\ (length (dispatch config (snd (processFrame config s inp))) <= 1)%nat.
Proof.
  split; [| split; [apply emission_at_most_one | apply dispatch_at_most_one]].
  unfold processFrame, candidates.
  destruct (enterFrame config s inp) as [[s' o] | [s1 r]] eqn:He.
  - apply enterFrame_early in He. cbn [snd first_some]. apply He.
  - rewrite finishFrame_outcome. cbn [trigger_of].
    apply frameTriggers_priority.
Qed.

(** ** Winks and the rearm gate *)

Lemma bindingFor_reason config g t :
  bindingFor config g = Some t -> triggerReason t = g.
Proof.
  unfold bindingFor.
  destruct (gesture_eqb (triggerNext config) g);
    [intros H; inversion H; reflexivity |].
  destruct (gesture_eqb (triggerPrev config) g);
    [intros H; inversion H; reflexivity | discriminate].
Qed.

Lemma winkTrigger_reason config v w t :
  winkTrigger config v w = Some t ->
  triggerReason t = wink_left \/ triggerReason t = wink_right.
Proof.
  unfold winkTrigger. destruct w as [g |]; [| discriminate].
  destruct (negb (inCooldown v)); [| discriminate].
  destruct g; try discriminate; intros H; apply bindingFor_reason in H; auto.
Qed.

Lemma first_some_wink_only {A} (x : option A) :
  first_some [x; None; None; None] = x.
Proof. destruct x; reflexivity. Qed.

(** With [rearmReady] false the block behind the rearm gate is skipped:
    whatever fires is a wink. *)
Lemma locked_only_winks config s inp tr :
  rearmReady s = false ->
  trigger_of (snd (processFrame config s inp)) = Some tr ->
  is_wink (triggerReason tr) = true.
Proof.
  intros Hr. unfold processFrame.
  destruct (enterFrame config s inp) as [[s' o] | [s1 r]] eqn:He.
  - apply enterFrame_early in He. destruct He as [_ Ho]. cbn [snd].
    rewrite Ho. discriminate.
  - apply enterFrame_on in He. destruct He as [_ [_ [_ [_ [Hrr _]]]]].
    rewrite finishFrame_outcome. cbn [trigger_of].
    rewrite frameTriggers_priority. cbv zeta.
    rewrite Hrr, Hr, andb_false_r, first_some_wink_only.
    intros Hw. apply winkTrigger_reason in Hw.
    destruct Hw as [-> | ->]; reflexivity.
Qed.

(** ** The closure bookkeeping reads [now] too early *)

Lemma enterFrame_untracked config s inp :
  leftClosedSince s = None -> rightClosedSince s = None ->
  match enterFrame config s inp with
  | inl (s', o) =>
      leftClosedSince s' = None /\ rightClosedSince s' = None
      /\ match frameReading config s inp with
         | Some r => (leftClosed r = true \/ rightClosed r = true)
                     /\ o = Threw ReferenceError
         | None => True
         end
  | inr (s1, r) =>
      leftClosedSince s1 = None /\ rightClosedSince s1 = None
      /\ leftClosed r = false /\ rightClosed r = false
      /\ frameReading config s inp = Some r
  end.
Proof.
  intros Hl Hr. unfold enterFrame, frameReading.
  destruct (_ <? _)%float; [auto |].
  destruct (detection inp) as [landmarks |]; [| cbn; auto].
  destruct (calculateSeparateEAR landmarks) as [[leftEar rightEar] | e];
    [| cbn; auto].
  destruct (calculateYaw landmarks) as [yaw | e]; [| cbn; auto].
  set (s0 := pushHistories leftEar rightEar yaw _).
  change (leftClosedSince s0) with (leftClosedSince s).
  rewrite Hl, trackClosure_unset.
  destruct (leftClosed (readEyes config s0)) eqn:Hlc.
  { cbn. auto. }
  change (rightClosedSince (set_leftClosedSince None s0))
    with (rightClosedSince s).
  rewrite Hr, trackClosure_unset.
  destruct (rightClosed (readEyes config s0)) eqn:Hrc.
  { cbn. auto. }
  cbn. auto.
Qed.

(** ** No blink or wink is ever tracked *)

Lemma headTurnTrigger_reason config v state lastHead t :
  fst (fst (headTurnTrigger config v state lastHead)) = Some t ->
  is_head_turn (triggerReason t) = true.
Proof.
  unfold headTurnTrigger.
  destruct state; cbn; try discriminate;
    destruct (_ <? _)%Z; cbn; try discriminate.
  - destruct (bindingFor config head_left) eqn:Hb; cbn; [| discriminate].
    intros H; inversion H; subst. apply bindingFor_reason in Hb. now rewrite Hb.
  - destruct (bindingFor config head_right) eqn:Hb; cbn; [| discriminate].
    intros H; inversion H; subst. apply bindingFor_reason in Hb. now rewrite Hb.
Qed.

Lemma winkMachine_idle v startTime :
  isLeftWink v = false -> isRightWink v = false ->
  winkMachine v none startTime = (none, startTime, None).
Proof.
  intros Hl Hr. unfold winkMachine. rewrite Hl, Hr. cbn.
  destruct (winkCooldown v); reflexivity.
Qed.

Lemma finishFrame_untracked config s r t :
  eyes_untracked s -> leftClosed r = false -> rightClosed r = false ->
  eyes_untracked (fst (finishFrame config s r t))
  /\ forall tr, trigger_of (snd (finishFrame config s r t)) = Some tr ->
                is_head_turn (triggerReason tr) = true.
Proof.
  intros [Hl [Hr [Hbs [Hbh Hw]]]] Hlc Hrc.
  unfold finishFrame.
  set (v := frameLocals config s r t).
  assert (Hb : bothClosed v = false).
  { unfold v, frameLocals. cbn [bothClosed]. now rewrite Hlc. }
  assert (Hlw : isLeftWink v = false).
  { unfold v, frameLocals. cbn [isLeftWink]. now rewrite Hrc. }
  assert (Hrw : isRightWink v = false).
  { unfold v, frameLocals. cbn [isRightWink]. now rewrite Hlc. }
  rewrite Hw, (winkMachine_idle v _ Hlw Hrw).
  unfold blinkMachine. rewrite Hb, Hbs, Hbh. cbn [filter].
  cbn [winkTrigger].
  unfold blinkAndHeadTriggers.
  destruct (negb (inCooldown v) && negb false && rearmReady s).
  - cbn [doubleBlinkTrigger longBlinkTrigger filter length Nat.leb Nat.ltb].
    destruct (headTurnTrigger config v _ _) as [[trig lh] hs] eqn:Hh.
    assert (Hreason : forall tr, trig = Some tr ->
                                 is_head_turn (triggerReason tr) = true).
    { intros tr ->. eapply headTurnTrigger_reason. now rewrite Hh. }
    destruct trig; destruct (rearm _ _ _); cbn; unfold eyes_untracked; cbn;
      (split; [auto 6 | intros tr Htr; inversion Htr; subst; auto;
                        try discriminate]).
  - destruct (rearm _ _ _); cbn; unfold eyes_untracked; cbn.
    split; [auto 6 | discriminate].
Qed.

Lemma processFrame_untracked config s inp :
  eyes_untracked s ->
  eyes_untracked (fst (processFrame config s inp))
  /\ forall tr, trigger_of (snd (processFrame config s inp)) = Some tr ->
                is_head_turn (triggerReason tr) = true.
Proof.
  intros Hu. pose proof Hu as [Hl [Hr [Hbs [Hbh Hw]]]].
  unfold processFrame.
  pose proof (enterFrame_untracked config s inp Hl Hr) as He.
  destruct (enterFrame config s inp) as [[s' o] | [s1 r]] eqn:Hent.
  - apply enterFrame_early in Hent.
    destruct Hent as [[_ [Hh [Hs [_ [_ [Hws _]]]]]] Ho].
    cbn [fst snd]. split.
    + unfold eyes_untracked. destruct He as [-> [-> _]].
      rewrite Hh, Hs, Hws. auto.
    + rewrite Ho. discriminate.
  - apply enterFrame_on in Hent.
    destruct Hent as [_ [Hh [Hs [_ [_ [Hws _]]]]]].
    destruct He as [Hl1 [Hr1 [Hlc [Hrc _]]]].
    apply finishFrame_untracked; auto.
    unfold eyes_untracked. rewrite Hh, Hs, Hws. auto.
Qed.

Lemma run_untracked config inputs :
  forall s, eyes_untracked s ->
  eyes_untracked (after config s inputs)
  /\ forall e, In e (snd (run config s inputs)) ->
               is_head_turn (triggerReason (emitted e)) = true.
Proof.
  unfold after.
  induction inputs as [| inp rest IH]; intros s Hu.
  - cbn. split; [exact Hu | intros e []].
  - cbn [run].
    destruct (processFrame_untracked config s inp Hu) as [Hu1 Ht].
    destruct (processFrame config s inp) as [s1 o]. cbn [fst snd] in *.
    destruct (IH s1 Hu1) as [Hu2 He].
    destruct (run config s1 rest) as [s2 es]. cbn [fst snd] in *.
    split; [exact Hu2 |].
    intros e Hin. apply in_app_or in Hin. destruct Hin as [Hin | Hin]; auto.
    destruct o as [| | [tr |] | err]; cbn in Hin; try contradiction.
    destruct Hin as [<- | []]. cbn. apply Ht. reflexivity.
Qed.

Lemma setBaselines_untracked smp s :
  eyes_untracked s -> eyes_untracked (setBaselines smp s).
Proof.
  unfold setBaselines, eyes_untracked.
  destruct (0 <? length (leftEarSamples smp))%nat;
    destruct (0 <? length (yawSamples smp))%nat;
    destruct (0 <? length (diffSamples smp))%nat; cbn; auto.
Qed.

Lemma reachable_untracked config s : reachable config s -> eyes_untracked s.
Proof.
  induction 1 as [startTime ticks s Hc | s inp _ IH].
  - unfold calibrateBaseline in Hc.
    destruct (sampleLoop startTime ticks no_samples) as [[smp | e] |];
      inversion Hc; subst.
    apply setBaselines_untracked. unfold eyes_untracked. cbn. auto.
  - now apply processFrame_untracked.
Qed.

(** C1, on the code: in any state of a session, a frame whose smoothed
    eye aspect ratio puts an eye below its close threshold makes
    [processFrame] throw a ReferenceError, because the closure bookkeeping
    reads [now] before [const now = Date.now()] has been evaluated. *)
Theorem closed_eye_throws (config : Config) (s : Engine) (inp : FrameInput)
    (r : Reading) :
  reachable config s ->
  frameReading config s inp = Some r ->
  leftClosed r = true \/ rightClosed r = true ->
  snd (processFrame config s inp) = Threw ReferenceError.
Proof.
  intros Hreach Hf Hc. apply reachable_untracked in Hreach.
  destruct Hreach as [Hl [Hr _]]. unfold processFrame.
  pose proof (enterFrame_untracked config s inp Hl Hr) as He.
  destruct (enterFrame config s inp) as [[s' o] | [s1 r1]].
  - rewrite Hf in He. cbn [snd]. apply He.
  - destruct He as [_ [_ [Hl1 [Hr1 Hf1]]]].
    rewrite Hf in Hf1. inversion Hf1; subst. destruct Hc; congruence.
Qed.

Lemma closed_eye_throws_witness :
  processFrame default_config initial_engine Scenario.closed_left_frame
  = (pushHistories 0.05 0.25 0 (set_lastFrameTime 1000 initial_engine),
     Threw ReferenceError).
Proof.
  apply injective_projections.
  - vm_compute. reflexivity.
  - refine (closed_eye_throws default_config initial_engine
              Scenario.closed_left_frame _ _ _ _).
    + apply (reach_calibrated default_config 0 Scenario.faceless_ticks).
      vm_compute. reflexivity.
    + vm_compute. reflexivity.
    + left. reflexivity.
Defined.

(** C4, on the code: in a session no blink is ever recorded and no
    double-blink (or long-blink) trigger is ever emitted, whatever the
    frames: the first frame that finds an eye closed throws before the
    blink bookkeeping. *)
Theorem double_blink_never_fires (config : Config) (s : Engine)
    (inputs : list FrameInput) :
  reachable config s ->
  blinkHistory (after config s inputs) = []
  /\ blinkState (after config s inputs) = None
  /\ forall e, In e (snd (run config s inputs)) ->
               triggerReason (emitted e) <> double_blink
               /\ triggerReason (emitted e) <> long_blink.
Proof.
  intros Hr. apply reachable_untracked in Hr.
  destruct (run_untracked config inputs s Hr) as [[_ [_ [Hs [Hh _]]]] He].
  split; [exact Hh | split; [exact Hs |]].
  intros e Hin. specialize (He e Hin).
  split; intros Heq; rewrite Heq in He; discriminate.
Qed.

Lemma double_blink_never_fires_witness :
  triggerNext default_config = double_blink
  /\ outcomes default_config initial_engine Scenario.double_blink_frames
     = repeat (Processed None) 7 ++ repeat (Threw ReferenceError) 5
       ++ repeat (Processed None) 5 ++ repeat (Threw ReferenceError) 5
       ++ repeat (Processed None) 3
  /\ snd (run default_config initial_engine Scenario.double_blink_frames) = []
  /\ blinkHistory (after default_config initial_engine
                     Scenario.double_blink_frames) = [].
Proof.
  split; [reflexivity |].
  split; [vm_compute; reflexivity |].
  split; [vm_compute; reflexivity |].
  refine (proj1 (double_blink_never_fires default_config initial_engine
                   Scenario.double_blink_frames _)).
  apply (reach_calibrated default_config 0 Scenario.faceless_ticks).
  vm_compute. reflexivity.
Defined.

(** C7, on the code: in a session no wink is ever begun and no wink
    trigger is ever emitted, whatever the frames and however long the
    asymmetric closure lasts: the frame that finds one eye closed throws
    before the wink state machine. *)
Theorem wink_never_fires (config : Config) (s : Engine)
    (inputs : list FrameInput) :
  reachable config s ->
  winkState (after config s inputs) = none
  /\ forall e, In e (snd (run config s inputs)) ->
               triggerReason (emitted e) <> wink_left
               /\ triggerReason (emitted e) <> wink_right.
Proof.
  intros Hr. apply reachable_untracked in Hr.
  destruct (run_untracked config inputs s Hr) as [[_ [_ [_ [_ Hw]]]] He].
  split; [exact Hw |].
  intros e Hin. specialize (He e Hin).
  split; intros Heq; rewrite Heq in He; discriminate.
Qed.

Lemma wink_never_fires_witness :
  triggerNext Scenario.wink_config = wink_left
  /\ outcomes Scenario.wink_config initial_engine Scenario.wink_frames
     = repeat (Processed None) 7 ++ repeat (Threw ReferenceError) 5
       ++ repeat (Processed None) 3
  /\ snd (run Scenario.wink_config initial_engine Scenario.wink_frames) = []
  /\ winkState (after Scenario.wink_config initial_engine
                  Scenario.wink_frames) = none.
Proof.
  split; [reflexivity |].
  split; [vm_compute; reflexivity |].
  split; [vm_compute; reflexivity |].
  refine (proj1 (wink_never_fires Scenario.wink_config initial_engine
                   Scenario.wink_frames _)).
  apply (reach_calibrated Scenario.wink_config 0 Scenario.faceless_ticks).
  vm_compute. reflexivity.
Defined.

(** ** The rearm gate in a session *)

Lemma reachable_after config inputs :
  forall s, reachable config s -> reachable config (after config s inputs).
Proof.
  induction inputs as [| inp rest IH]; intros s Hs; [exact Hs |].
  rewrite after_cons. apply IH. now apply reach_frame.
Qed.

Lemma winkCandidate_untracked config s inp :
  eyes_untracked s -> winkCandidate config s inp = None.
Proof.
  intros [Hl [Hr [_ [_ Hw]]]]. unfold winkCandidate.
  pose proof (enterFrame_untracked config s inp Hl Hr) as He.
  destruct (enterFrame config s inp) as [[s' o] | [s1 r]] eqn:Hent;
    [reflexivity |].
  apply enterFrame_on in Hent.
  destruct Hent as [_ [_ [_ [_ [_ [Hws _]]]]]].
  destruct He as [_ [_ [Hlc [Hrc _]]]].
  rewrite Hws, Hw, winkMachine_idle; [reflexivity | |];
    unfold frameLocals; cbn [isLeftWink isRightWink].
  - now rewrite Hrc.
  - now rewrite Hlc.
Qed.

(** C10, on the code: in a session, a call made while [rearmReady] is
    false emits no trigger at all, whatever the frame and however long ago
    the last trigger was: the rearm test keeps the double blink, the long
    blink and the head turn out, and no wink candidate ever arises, because
    the frames of a wink throw before the wink state machine (the defect
    of C1 and C7). *)
Theorem unarmed_session_fires_nothing (config : Config) (s : Engine)
    (inp : FrameInput) :
  reachable config s ->
  rearmReady s = false ->
  winkCandidate config s inp = None
  /\ trigger_of (snd (processFrame config s inp)) = None.
Proof.
  intros Hreach Hr. apply reachable_untracked in Hreach.
  split; [now apply winkCandidate_untracked |].
  destruct (trigger_of (snd (processFrame config s inp))) as [tr |] eqn:Ht;
    [| reflexivity].
  pose proof (locked_only_winks config s inp tr Hr Ht) as Hwink.
  pose proof (proj2 (processFrame_untracked config s inp Hreach) tr Ht) as Hhead.
  destruct (triggerReason tr); discriminate.
Qed.

Lemma unarmed_session_fires_nothing_witness :
  triggerNext Scenario.quick_config = wink_left
  /\ outcomes Scenario.quick_config initial_engine Scenario.wink_after_turn
     = repeat (Processed None) 5
       ++ [Processed (Some (mkTrigger prev head_right)); Processed None]
       ++ repeat (Threw ReferenceError) 8
  /\ rearmReady (after Scenario.quick_config initial_engine
                   Scenario.wink_after_turn) = false
  /\ (cooldownMs Scenario.quick_config
      <= dateNow Scenario.wink_released
         - lastTriggerTime (after Scenario.quick_config initial_engine
                              Scenario.wink_after_turn))%Z
  /\ snd (processFrame Scenario.quick_config
             (after Scenario.quick_config initial_engine
                Scenario.wink_after_turn)
             Scenario.wink_released) = Processed None
  /\ trigger_of (snd (processFrame Scenario.quick_config
                        (after Scenario.quick_config initial_engine
                           Scenario.wink_after_turn)
                        Scenario.wink_released)) = None.
Proof.
  split; [reflexivity |].
  split; [vm_compute; reflexivity |].
  split; [vm_compute; reflexivity |].
  split; [vm_compute; discriminate |].
  split; [vm_compute; reflexivity |].
  refine (proj2 (unarmed_session_fires_nothing Scenario.quick_config
                   (after Scenario.quick_config initial_engine
                      Scenario.wink_after_turn)
                   Scenario.wink_released _ _)).
  - apply reachable_after.
    apply (reach_calibrated Scenario.quick_config 0 Scenario.faceless_ticks).
    vm_compute. reflexivity.
  - vm_compute. reflexivity.
Defined.

(** ** Stopping a session *)

(** C9, on the code: [destroyFaceControl] stops the loop (a callback that
    still fires does nothing) and resets the variables under "Reset state",
    but [rearmReady], [openFrames], [blinkState], the closure onsets,
    [lastFrameTime], the baseline and the noise estimate keep the values of
    the stopped session. After a session stopped right after a head-turn
    trigger, the restarted engine is not re-armed and has a shifted
    baseline, and it ignores a head turn that a fresh engine answers. *)
Theorem destroy_keeps_rearm_state :
  (forall config m inp requestId,
      session (destroyFaceControl m) = initial_session
      /\ detectLoop config (destroyFaceControl m) inp requestId
         = (destroyFaceControl m, None))
  /\ (forall m,
         let e := engine m in
         let e' := engine (destroyFaceControl m) in
         rearmReady e' = rearmReady e
         /\ openFrames e' = openFrames e
         /\ blinkState e' = blinkState e
         /\ leftClosedSince e' = leftClosedSince e
         /\ rightClosedSince e' = rightClosedSince e
         /\ lastFrameTime e' = lastFrameTime e
         /\ baseline e' = baseline e
         /\ noise e' = noise e)
  /\ reachable Scenario.head_config
       (after Scenario.head_config initial_engine
          (Scenario.approach ++ [Scenario.first_turn]))
  /\ rearmReady (engine Scenario.stopped_after_trigger) = false
  /\ rearmReady initial_engine = true
  /\ (exists fresh stale,
         Scenario.restart initial_module = Some (Ok fresh)
         /\ Scenario.restart Scenario.stopped_after_trigger = Some (Ok stale)
         /\ rearmReady (engine stale) = false
         /\ bYaw (baseline (engine stale)) <> bYaw default_baseline
         /\ trigger_of (snd (processFrame Scenario.head_config (engine fresh)
                               Scenario.turn_on_restart))
            = Some (mkTrigger next head_right)
         /\ trigger_of (snd (processFrame Scenario.head_config (engine stale)
                               Scenario.turn_on_restart))
            = None).
Proof.
  split; [| split; [| split; [| split; [| split]]]].
  - intros config m inp requestId. split; reflexivity.
  - intros m. cbn. repeat split; reflexivity.
  - unfold after.
    assert (H0 : reachable Scenario.head_config initial_engine).
    { apply (reach_calibrated _ 0 Scenario.faceless_ticks).
      vm_compute. reflexivity. }
    assert (Hrun : forall inputs s, reachable Scenario.head_config s ->
               reachable Scenario.head_config
                 (fst (run Scenario.head_config s inputs))).
    { induction inputs as [| inp rest IH]; intros s Hs; [exact Hs |].
      cbn [run]. pose proof (reach_frame _ s inp Hs) as H1.
      destruct (processFrame Scenario.head_config s inp) as [s1 o].
      specialize (IH s1 H1).
      destruct (run Scenario.head_config s1 rest) as [s2 es]. exact IH. }
    apply Hrun, H0.
  - vm_compute. reflexivity.
  - reflexivity.
  - eexists. eexists.
    split; [vm_compute; reflexivity |].
    split; [vm_compute; reflexivity |].
    split; [reflexivity |].
    split; [vm_compute; discriminate |].
    split; vm_compute; reflexivity.
Qed.

(** ** Head-turn excursions *)










(** ** A frame in a state without eye closures *)

(** In a state with no eye closure on record, a frame that reaches the
    trigger checks is decided by the head turn alone. *)
Lemma finishFrame_head config s r t :
  eyes_untracked s -> leftClosed r = false -> rightClosed r = false ->
  let v := frameLocals config s r t in
  let hm := headMachine config v (headTurnState s) in
  let res :=
    if negb (inCooldown v) && rearmReady s
    then headTurnTrigger config v hm (lastHeadTurnTrigger s)
    else (None, lastHeadTurnTrigger s, hm) in
  snd (finishFrame config s r t) = Processed (fst (fst res))
  /\ headTurnState (fst (finishFrame config s r t)) = snd res
  /\ lastHeadTurnTrigger (fst (finishFrame config s r t)) = snd (fst res)
  /\ lastTriggerTime (fst (finishFrame config s r t))
     = match fst (fst res) with Some _ => t | None => lastTriggerTime s end
  /\ (rearmReady (fst (finishFrame config s r t)),
      openFrames (fst (finishFrame config s r t)))
     = match fst (fst res) with
       | Some _ => rearm r false 0
       | None => rearm r (rearmReady s) (openFrames s)
       end.
Proof.
  intros [Hl [Hr [Hbs [Hbh Hw]]]] Hlc Hrc. cbv zeta.
  unfold finishFrame.
  set (v := frameLocals config s r t).
  assert (Hb : bothClosed v = false).
  { unfold v, frameLocals. cbn [bothClosed]. now rewrite Hlc. }
  assert (Hlw : isLeftWink v = false).
  { unfold v, frameLocals. cbn [isLeftWink]. now rewrite Hrc. }
  assert (Hrw : isRightWink v = false).
  { unfold v, frameLocals. cbn [isRightWink]. now rewrite Hlc. }
  rewrite Hw, (winkMachine_idle v _ Hlw Hrw).
  unfold blinkMachine. rewrite Hb, Hbs, Hbh. cbn [filter].
  cbn [winkTrigger].
  unfold blinkAndHeadTriggers.
  replace (negb (inCooldown v) && negb false && rearmReady s)
    with (negb (inCooldown v) && rearmReady s)
    by now rewrite andb_true_r.
  destruct (negb (inCooldown v) && rearmReady s).
  - cbn [doubleBlinkTrigger longBlinkTrigger filter length Nat.leb Nat.ltb].
    destruct (headTurnTrigger config v _ _) as [[trig lh] hs].
    destruct trig; destruct (rearm _ _ _) eqn:Hre; cbn [fst snd];
      repeat split; reflexivity.
  - destruct (rearm _ _ _) eqn:Hre; cbn [fst snd]; repeat split; reflexivity.
Qed.

Lemma processFrame_head config s inp :
  eyes_untracked s ->
  match enterFrame config s inp with
  | inl (s', o) =>
      processFrame config s inp = (s', o)
      /\ same_control s s' /\ trigger_of o = None
  | inr (s1, r) =>
      let v := frameLocals config s1 r (dateNow inp) in
      let hm := headMachine config v (headTurnState s) in
      let res :=
        if negb (dateNow inp - lastTriggerTime s <? cooldownMs config)%Z
           && rearmReady s
        then headTurnTrigger config v hm (lastHeadTurnTrigger s)
        else (None, lastHeadTurnTrigger s, hm) in
      let p := processFrame config s inp in
      snd p = Processed (fst (fst res))
      /\ headTurnState (fst p) = snd res
      /\ lastHeadTurnTrigger (fst p) = snd (fst res)
      /\ lastTriggerTime (fst p)
         = match fst (fst res) with
           | Some _ => dateNow inp
           | None => lastTriggerTime s
           end
      /\ (rearmReady (fst p), openFrames (fst p))
         = match fst (fst res) with
           | Some _ => rearm r false 0
           | None => rearm r (rearmReady s) (openFrames s)
           end
  end.
Proof.
  intros Hu. pose proof Hu as [Hl [Hr [Hbs [Hbh Hw]]]].
  unfold processFrame.
  pose proof (enterFrame_untracked config s inp Hl Hr) as He.
  destruct (enterFrame config s inp) as [[s' o] | [s1 r]] eqn:Hent.
  - apply enterFrame_early in Hent. destruct Hent as [Hs Ho].
    split; [reflexivity | split; assumption].
  - apply enterFrame_on in Hent.
    destruct Hent as [Hlt [Hh [Hs [Hof [Hrr [Hws [_ [_ [Hhs [Hlh _]]]]]]]]]].
    destruct He as [Hl1 [Hr1 [Hlc [Hrc _]]]].
    assert (Hu1 : eyes_untracked s1).
    { unfold eyes_untracked. rewrite Hh, Hs, Hws. auto. }
    pose proof (finishFrame_head config s1 r (dateNow inp) Hu1 Hlc Hrc) as Hf.
    cbv zeta in Hf |- *.
    change (inCooldown (frameLocals config s1 r (dateNow inp)))
      with (dateNow inp - lastTriggerTime s1 <? cooldownMs config)%Z in Hf.
    rewrite Hlt, Hhs, Hlh, Hrr, Hof in Hf. exact Hf.
Qed.




Lemma headTurnTrigger_none config v st lastHead :
  fst (fst (headTurnTrigger config v st lastHead)) = None ->
  headTurnTrigger config v st lastHead = (None, lastHead, st).
Proof.
  unfold headTurnTrigger.
  destruct st; try reflexivity; destruct (_ <? _)%Z; try reflexivity.
  - destruct (bindingFor config head_left); [discriminate | reflexivity].
  - destruct (bindingFor config head_right); [discriminate | reflexivity].
Qed.

(** A frame without a trigger, in a state without eye closures: the
    timers stay, the state machine takes its step, and the count of open
    frames toward re-arming goes on. *)
Lemma quiet_frame config s inp :
  eyes_untracked s ->
  trigger_of (snd (processFrame config s inp)) = None ->
  let s' := fst (processFrame config s inp) in
  lastTriggerTime s' = lastTriggerTime s
  /\ lastHeadTurnTrigger s' = lastHeadTurnTrigger s
  /\ headTurnState s'
     = match enterFrame config s inp with
       | inl _ => headTurnState s
       | inr (s1, r) =>
           headMachine config (frameLocals config s1 r (dateNow inp))
                       (headTurnState s)
       end
  /\ forall n,
       rearmReady s = true
       \/ (n <= openFrames s
           /\ openFrames s < BASE_THRESHOLDS.rearmOpenFrames)%nat ->
       let n' := match enterFrame config s inp with
                 | inl _ => n
                 | inr (_, r) => if leftOpen r && rightOpen r then S n else O
                 end in
       rearmReady s' = true
       \/ (n' <= openFrames s'
           /\ openFrames s' < BASE_THRESHOLDS.rearmOpenFrames)%nat.
Proof.
  intros Hu Hn. cbv zeta.
  pose proof (processFrame_head config s inp Hu) as Hf.
  destruct (enterFrame config s inp) as [[s0 o] | [s1 r]].
  - destruct Hf as [Hp [Hs _]]. rewrite Hp. cbn [fst].
    destruct Hs as [Hlt [_ [_ [Hof [Hrr [_ [_ [_ [Hhs [Hlh _]]]]]]]]]].
    rewrite Hlt, Hlh, Hhs, Hof, Hrr. auto.
  - cbv zeta in Hf. destruct Hf as [Ho [Hs' [Hlh [Hlt Hre]]]].
    rewrite Ho in Hn. cbn [trigger_of] in Hn.
    assert (Hres :
      (if negb (dateNow inp - lastTriggerTime s <? cooldownMs config)%Z
          && rearmReady s
       then headTurnTrigger config (frameLocals config s1 r (dateNow inp))
              (headMachine config (frameLocals config s1 r (dateNow inp))
                 (headTurnState s)) (lastHeadTurnTrigger s)
       else (None, lastHeadTurnTrigger s,
             headMachine config (frameLocals config s1 r (dateNow inp))
               (headTurnState s)))
      = (None, lastHeadTurnTrigger s,
         headMachine config (frameLocals config s1 r (dateNow inp))
           (headTurnState s))).
    { destruct (negb _ && rearmReady s); [| reflexivity].
      now apply headTurnTrigger_none. }
    rewrite Hres in Hs', Hlh, Hlt, Hre. cbn [fst snd] in Hs', Hlh, Hlt, Hre.
    split; [exact Hlt |]. split; [exact Hlh |]. split; [exact Hs' |].
    intros n Harm. unfold rearm in Hre.
    unfold BASE_THRESHOLDS.rearmOpenFrames in *.
    destruct (rearmReady s); cbn [negb] in Hre.
    + inversion Hre. now left.
    + destruct Harm as [Hd | [Hle Hlt3]]; [discriminate |].
      destruct (leftOpen r && rightOpen r).
      * destruct (3 <=? S (openFrames s))%nat eqn:H3; inversion Hre.
        -- now left.
        -- apply Nat.leb_gt in H3. right. lia.
      * inversion Hre. right. lia.
Qed.





(** A run without a trigger. *)
Lemma quiet_run config inputs :
  forall s n,
    eyes_untracked s ->
    snd (run config s inputs) = [] ->
    rearmReady s = true
    \/ (n <= openFrames s
        /\ openFrames s < BASE_THRESHOLDS.rearmOpenFrames)%nat ->
    let s' := after config s inputs in
    lastTriggerTime s' = lastTriggerTime s
    /\ lastHeadTurnTrigger s' = lastHeadTurnTrigger s
    /\ (rearmReady s' = true
        \/ (openStreak config s inputs n <= openFrames s'
            /\ openFrames s' < BASE_THRESHOLDS.rearmOpenFrames)%nat).
Proof.
  induction inputs as [| inp rest IH]; intros s n Hu Hes Harm; cbv zeta.
  - rewrite after_nil. cbn [openStreak]. auto.
  - rewrite run_cons_emissions in Hes. apply app_eq_nil in Hes.
    destruct Hes as [He Hrest].
    assert (Hn : trigger_of (snd (processFrame config s inp)) = None).
    { destruct (snd (processFrame config s inp)) as [| | [tr |] | e];
        try reflexivity. discriminate. }
    destruct (quiet_frame config s inp Hu Hn) as [Hlt [Hlh [_ Hstep]]].
    destruct (processFrame_untracked config s inp Hu) as [Hu1 _].
    specialize (Hstep n Harm). cbv zeta in Hstep.
    destruct (IH _ _ Hu1 Hrest Hstep) as [Hlt' [Hlh' Harm']].
    rewrite after_cons. cbn [openStreak].
    split; [congruence |]. split; [congruence | exact Harm'].
Qed.







(** * Further properties of the module *)

(** ** Rolling histories *)

Lemma finishFrame_keeps config s r t :
  let s' := fst (finishFrame config s r t) in
  leftEarHistory s' = leftEarHistory s
  /\ rightEarHistory s' = rightEarHistory s
  /\ yawHistory s' = yawHistory s
  /\ leftClosedSince s' = leftClosedSince s
  /\ rightClosedSince s' = rightClosedSince s
  /\ lastFrameTime s' = lastFrameTime s
  /\ noise s' = noise s.
Proof.
  unfold finishFrame.
  destruct (winkMachine _ _ _) as [[ws wst] wt].
  destruct (blinkMachine _ _ _) as [bs bh].
  destruct (blinkAndHeadTriggers _ _ _ _ _ _ _) as [[trig lh] hs].
  destruct trig; destruct (rearm _ _ _); cbn; repeat split; reflexivity.
Qed.








(** ** Which frames throw *)

Lemma at_index_ok landmarks i :
  (i < length landmarks)%nat -> exists p, at_index landmarks i = Ok p.
Proof.
  intros H. unfold at_index.
  destruct (nth_error landmarks i) as [p |] eqn:Hn; [now exists p |].
  apply nth_error_None in Hn. lia.
Qed.

Lemma at_index_short landmarks i :
  (length landmarks <= i)%nat -> at_index landmarks i = Throw TypeError.
Proof.
  intros H. unfold at_index.
  apply nth_error_None in H. now rewrite H.
Qed.

Lemma at_index_error landmarks i e :
  at_index landmarks i = Throw e -> e = TypeError.
Proof.
  unfold at_index. destruct (nth_error landmarks i); congruence.
Qed.

Lemma eye_at_ok landmarks i1 i2 i3 i4 i5 i6 :
  (i1 < length landmarks)%nat -> (i2 < length landmarks)%nat ->
  (i3 < length landmarks)%nat -> (i4 < length landmarks)%nat ->
  (i5 < length landmarks)%nat -> (i6 < length landmarks)%nat ->
  exists eye, eye_at landmarks i1 i2 i3 i4 i5 i6 = Ok eye.
Proof.
  intros H1 H2 H3 H4 H5 H6. unfold eye_at.
  destruct (at_index_ok _ _ H1) as [a ->].
  destruct (at_index_ok _ _ H2) as [b ->].
  destruct (at_index_ok _ _ H3) as [c ->].
  destruct (at_index_ok _ _ H4) as [d ->].
  destruct (at_index_ok _ _ H5) as [e ->].
  destruct (at_index_ok _ _ H6) as [f ->].
  cbn. eauto.
Qed.

Lemma eye_at_error landmarks i1 i2 i3 i4 i5 i6 e :
  eye_at landmarks i1 i2 i3 i4 i5 i6 = Throw e -> e = TypeError.
Proof.
  unfold eye_at, bind.
  repeat match goal with
         | |- context [at_index landmarks ?i] =>
             let H := fresh "H" in
             destruct (at_index landmarks i) eqn:H;
             [| apply at_index_error in H; congruence]
         end.
  discriminate.
Qed.

Lemma signals_wellFormed landmarks :
  wellFormed landmarks ->
  (exists ears, calculateSeparateEAR landmarks = Ok ears)
  /\ (exists yaw, calculateYaw landmarks = Ok yaw).
Proof.
  unfold wellFormed. intros H. split.
  - unfold calculateSeparateEAR.
    destruct (eye_at_ok landmarks 33 160 158 133 153 144) as [l ->]; try lia.
    destruct (eye_at_ok landmarks 362 385 387 263 373 380) as [r ->]; try lia.
    cbn. eauto.
  - unfold calculateYaw.
    destruct (at_index_ok landmarks 1) as [a ->]; [lia |].
    destruct (at_index_ok landmarks 234) as [b ->]; [lia |].
    destruct (at_index_ok landmarks 454) as [c ->]; [lia |].
    cbn. eauto.
Qed.

Lemma signals_short landmarks :
  (length landmarks < 455)%nat ->
  calculateSeparateEAR landmarks = Throw TypeError
  \/ ((exists ears, calculateSeparateEAR landmarks = Ok ears)
      /\ calculateYaw landmarks = Throw TypeError).
Proof.
  intros H.
  destruct (calculateSeparateEAR landmarks) as [ears | e] eqn:He.
  - right. split; [eauto |].
    unfold calculateYaw, bind.
    destruct (at_index landmarks 1) eqn:H1;
      [| apply at_index_error in H1; congruence].
    destruct (at_index landmarks 234) eqn:H2;
      [| apply at_index_error in H2; congruence].
    rewrite at_index_short; [reflexivity | lia].
  - left. f_equal. unfold calculateSeparateEAR, bind in He.
    destruct (eye_at landmarks 33 160 158 133 153 144) eqn:H1;
      [| apply eye_at_error in H1; congruence].
    destruct (eye_at landmarks 362 385 387 263 373 380) eqn:H2;
      [discriminate | apply eye_at_error in H2; congruence].
Qed.

Lemma trackClosure_error closed since e :
  trackClosure closed since = Throw e -> e = ReferenceError.
Proof. destruct closed, since; cbn; congruence. Qed.

Lemma enterFrame_reading config s inp s1 r :
  enterFrame config s inp = inr (s1, r) -> frameReading config s inp = Some r.
Proof.
  unfold enterFrame, frameReading.
  destruct (_ <? _)%float; [discriminate |].
  destruct (detection inp) as [landmarks |]; [| discriminate].
  destruct (calculateSeparateEAR landmarks) as [[leftEar rightEar] | e];
    [| discriminate].
  destruct (calculateYaw landmarks) as [yaw | e]; [| discriminate].
  destruct (trackClosure _ _) as [since | e]; [| discriminate].
  destruct (trackClosure _ _) as [since2 | e]; [| discriminate].
  intros H; inversion H; reflexivity.
Qed.

(** X2: a frame with a face that passes the rate limiter throws a
    TypeError exactly when its landmark array has fewer than 455 points
    (index 454, the right cheek, is the largest one read); the state then
    changes in [lastFrameTime] only. *)
Theorem type_error_iff_short (config : Config) (s : Engine)
    (inp : FrameInput) (landmarks : Landmarks) :
  (perfNow inp - lastFrameTime s <? 1000 / BASE_THRESHOLDS.targetFps)%float
  = false ->
  detection inp = Some landmarks ->
  (snd (processFrame config s inp) = Threw TypeError
   <-> (length landmarks < 455)%nat)
  /\ ((length landmarks < 455)%nat ->
      fst (processFrame config s inp) = set_lastFrameTime (perfNow inp) s).
Proof.
  intros Hrate Hdet.
  assert (Hshort : (length landmarks < 455)%nat ->
                   processFrame config s inp
                   = (set_lastFrameTime (perfNow inp) s, Threw TypeError)).
  { intros Hlen. unfold processFrame, enterFrame. rewrite Hrate, Hdet.
    destruct (signals_short landmarks Hlen) as [-> | [[[l r] ->] ->]];
      reflexivity. }
  split; [split |].
  - intros Hthrow.
    destruct (Nat.lt_ge_cases (length landmarks) 455) as [Hlt | Hge];
      [exact Hlt | exfalso].
    destruct (signals_wellFormed landmarks Hge) as [[[l r] He] [yaw Hy]].
    unfold processFrame, enterFrame in Hthrow.
    rewrite Hrate, Hdet, He, Hy in Hthrow.
    destruct (trackClosure _ _) as [since | e] eqn:H1.
    2:{ apply trackClosure_error in H1. cbn in Hthrow. congruence. }
    destruct (trackClosure _ _) as [since2 | e] eqn:H2 in Hthrow.
    2:{ apply trackClosure_error in H2. cbn in Hthrow. congruence. }
    rewrite finishFrame_outcome in Hthrow. discriminate.
  - intros Hlen. now rewrite (Hshort Hlen).
  - intros Hlen. now rewrite (Hshort Hlen).
Qed.

Lemma type_error_iff_short_witness :
  snd (processFrame default_config initial_engine
         (mkInput 1000 (Some (firstn 400 (Synthetic.face 0.25 0.25 0))) 1000))
  = Threw TypeError.
Proof.
  refine (proj2 (proj1 (type_error_iff_short default_config initial_engine
                          (mkInput 1000 _ 1000) _ _ _)) _).
  - vm_compute. reflexivity.
  - reflexivity.
  - vm_compute. apply Nat.leb_le. reflexivity.
Defined.

(** X3: in every state of a session, a frame that yields an eye
    classification with neither eye closed runs to the end of
    [processFrame]: together with the frames that find an eye closed
    (ReferenceError) and the short landmark arrays (TypeError), this is
    every way a call can end. *)
Theorem open_eyes_frame_runs_through (config : Config) (s : Engine)
    (inp : FrameInput) (r : Reading) :
  reachable config s ->
  frameReading config s inp = Some r ->
  leftClosed r = false -> rightClosed r = false ->
  exists t, snd (processFrame config s inp) = Processed t.
Proof.
  intros Hreach Hf Hlc Hrc. apply reachable_untracked in Hreach.
  destruct Hreach as [Hl [Hr _]]. unfold processFrame.
  pose proof (enterFrame_untracked config s inp Hl Hr) as He.
  destruct (enterFrame config s inp) as [[s' o] | [s1 r1]].
  - rewrite Hf in He. destruct He as [_ [_ [[Hc | Hc] _]]]; congruence.
  - rewrite finishFrame_outcome. eauto.
Qed.

Lemma open_eyes_frame_runs_through_witness :
  exists t, snd (processFrame default_config initial_engine
                   (Synthetic.frame 1000 0.25 0.25 0)) = Processed t.
Proof.
  refine (open_eyes_frame_runs_through default_config initial_engine
            (Synthetic.frame 1000 0.25 0.25 0) _ _ _ _ _).
  - apply (reach_calibrated default_config 0 Scenario.faceless_ticks).
    vm_compute. reflexivity.
  - vm_compute. reflexivity.
  - reflexivity.
  - reflexivity.
Defined.

(** ** Frames without a face *)

Lemma same_but_clock_refl s : same_but_clock s s.
Proof. unfold same_but_clock, same_control. repeat split; reflexivity. Qed.

Lemma same_but_clock_trans s1 s2 s3 :
  same_but_clock s1 s2 -> same_but_clock s2 s3 -> same_but_clock s1 s3.
Proof.
  unfold same_but_clock, same_control. intros H1 H2.
  repeat match goal with H : _ /\ _ |- _ => destruct H end.
  repeat split; congruence.
Qed.

Lemma no_face_frame config s inp :
  detection inp = None ->
  same_but_clock s (fst (processFrame config s inp))
  /\ trigger_of (snd (processFrame config s inp)) = None
  /\ (snd (processFrame config s inp) = Skipped
      \/ snd (processFrame config s inp) = NoFace).
Proof.
  intros Hd. unfold processFrame, enterFrame. rewrite Hd.
  destruct (_ <? _)%float; cbn [fst snd trigger_of].
  - split; [apply same_but_clock_refl | auto].
  - split; [| auto].
    unfold same_but_clock, same_control. cbn. repeat split; reflexivity.
Qed.

(** X4: while the detector finds no face, the engine emits nothing and
    keeps every variable but [lastFrameTime]: the histories get no sample,
    the state machines and timers stay where they are. *)
Theorem faceless_run_changes_nothing (config : Config) (s : Engine)
    (inputs : list FrameInput) :
  (forall inp, In inp inputs -> detection inp = None) ->
  snd (run config s inputs) = []
  /\ same_but_clock s (after config s inputs).
Proof.
  revert s. induction inputs as [| inp rest IH]; intros s Hall.
  - split; [reflexivity | apply same_but_clock_refl].
  - destruct (no_face_frame config s inp (Hall inp (or_introl eq_refl)))
      as [Hsame [Hnone _]].
    destruct (IH (fst (processFrame config s inp))
                 (fun i Hi => Hall i (or_intror Hi))) as [Hes Hafter].
    rewrite run_cons_emissions, after_cons, Hes. split.
    + destruct (snd (processFrame config s inp)) as [| | [t |] | e];
        try reflexivity. discriminate.
    + eapply same_but_clock_trans; eauto.
Qed.

Lemma faceless_run_changes_nothing_witness :
  snd (run default_config initial_engine
         [Synthetic.no_face 1000; Synthetic.no_face 1040]) = [].
Proof.
  refine (proj1 (faceless_run_changes_nothing default_config initial_engine
                   [Synthetic.no_face 1000; Synthetic.no_face 1040] _)).
  intros inp [<- | [<- | []]]; reflexivity.
Defined.

(** ** Re-arming after a trigger *)

Lemma finishFrame_rearm config s r t :
  (rearmReady (fst (finishFrame config s r t)),
   openFrames (fst (finishFrame config s r t)))
  = match fst (fst (frameTriggers config s r t)) with
    | Some _ => rearm r false 0
    | None => rearm r (rearmReady s) (openFrames s)
    end.
Proof.
  unfold finishFrame, frameTriggers.
  destruct (winkMachine _ _ _) as [[ws wst] wt].
  destruct (blinkMachine _ _ _) as [bs bh]. cbn [snd].
  destruct (blinkAndHeadTriggers _ _ _ _ _ _ _) as [[trig lh] hs].
  destruct trig; cbn [fst]; destruct (rearm _ _ _); reflexivity.
Qed.

Lemma rearm_locked r k frames :
  (frames <= k)%nat -> (k < 2)%nat ->
  fst (rearm r false frames) = false
  /\ (snd (rearm r false frames) <= S k)%nat.
Proof.
  intros Hk H2. unfold rearm. cbn [negb].
  destruct (leftOpen r && rightOpen r); cbn [fst snd].
  - destruct (BASE_THRESHOLDS.rearmOpenFrames <=? S frames)%nat eqn:Hle.
    + apply Nat.leb_le in Hle. unfold BASE_THRESHOLDS.rearmOpenFrames in Hle.
      lia.
    + split; [reflexivity | lia].
  - split; [reflexivity | lia].
Qed.

Lemma processFrame_lock config s inp :
  (trigger_of (snd (processFrame config s inp)) <> None ->
   rearm_lock 1 (fst (processFrame config s inp)))
  /\ (forall k, rearm_lock k s -> (k < 2)%nat ->
                rearm_lock (S k) (fst (processFrame config s inp))).
Proof.
  unfold processFrame.
  destruct (enterFrame config s inp) as [[s' o] | [s1 r]] eqn:He.
  - apply enterFrame_early in He. destruct He as [Hs Ho]. cbn [fst snd].
    destruct Hs as [_ [_ [_ [Hof [Hrr _]]]]]. split; [congruence |].
    intros k [Hr Hk] _. unfold rearm_lock. rewrite Hrr, Hof. split; [exact Hr | lia].
  - apply enterFrame_on in He. destruct He as [_ [_ [_ [Hof [Hrr _]]]]].
    rewrite finishFrame_outcome. cbn [trigger_of].
    pose proof (finishFrame_rearm config s1 r (dateNow inp)) as Hre.
    unfold rearm_lock.
    destruct (fst (fst (frameTriggers config s1 r (dateNow inp)))) as [tr |].
    + destruct (rearm_locked r 0 0 (Nat.le_refl 0) Nat.lt_0_2) as [H1 H2].
      rewrite <- Hre in H1, H2. cbn [fst snd] in H1, H2.
      split; [intros _; split; assumption |].
      intros k _ _. split; [assumption | lia].
    + split; [congruence |].
      intros k [Hr Hk] H2. rewrite Hrr, Hr, Hof in Hre.
      destruct (rearm_locked r k (openFrames s) Hk H2) as [H1 H3].
      rewrite <- Hre in H1, H3. cbn [fst snd] in H1, H3. now split.
Qed.

Lemma locked_run_only_winks config rest :
  forall k s,
    rearm_lock k s -> (k + length rest <= 3)%nat ->
    forall e, In e (snd (run config s rest)) ->
              is_wink (triggerReason (emitted e)) = true.
Proof.
  induction rest as [| inp rest' IH]; intros k s Hlock Hlen e Hin;
    [destruct Hin |].
  rewrite run_cons_emissions in Hin. apply in_app_or in Hin.
  destruct Hin as [Hin | Hin].
  - destruct (snd (processFrame config s inp)) as [| | [tr |] | err] eqn:Ho;
      cbn in Hin; try contradiction.
    destruct Hin as [<- | []]. cbn.
    apply (locked_only_winks config s inp); [apply Hlock |].
    now rewrite Ho.
  - destruct rest' as [| inp2 rest'']; [destruct Hin |].
    cbn [length] in Hlen.
    apply (IH (S k) (fst (processFrame config s inp))); auto; [| cbn; lia].
    apply (proj2 (processFrame_lock config s inp)); [exact Hlock | lia].
Qed.

(** X5: a call that emits a trigger leaves the engine not re-armed with
    at most one open frame counted, so the two calls that follow it can
    emit nothing but a wink trigger, whatever the frames and the cooldown
    setting. *)
Theorem two_calls_after_a_trigger (config : Config) (s : Engine)
    (inp : FrameInput) (tr : Trigger) (rest : list FrameInput) :
  trigger_of (snd (processFrame config s inp)) = Some tr ->
  (length rest <= 2)%nat ->
  rearm_lock 1 (fst (processFrame config s inp))
  /\ forall e,
       In e (snd (run config (fst (processFrame config s inp)) rest)) ->
       is_wink (triggerReason (emitted e)) = true.
Proof.
  intros Htr Hlen.
  assert (Hlock : rearm_lock 1 (fst (processFrame config s inp))).
  { apply (proj1 (processFrame_lock config s inp)). rewrite Htr.
    discriminate. }
  split; [exact Hlock |].
  apply (locked_run_only_winks config rest 1 _ Hlock). lia.
Qed.

Lemma two_calls_after_a_trigger_witness :
  rearm_lock 1
    (fst (processFrame Scenario.head_config
            (after Scenario.head_config initial_engine Scenario.approach)
            Scenario.first_turn)).
Proof.
  refine (proj1 (two_calls_after_a_trigger Scenario.head_config
                   (after Scenario.head_config initial_engine
                      Scenario.approach)
                   Scenario.first_turn (mkTrigger next head_right)
                   Scenario.still_turned _ _)).
  - vm_compute. reflexivity.
  - cbn. apply Nat.leb_le. reflexivity.
Defined.

(** X21: the other half of re-arming. In a state with no eye closure on
    record, once the calls that follow a trigger emit nothing and end with
    [rearmOpenFrames] frames in a row that find both eyes open, the engine
    is re-armed; frames that are skipped, lack a face or throw in between
    do not break the row. *)
Theorem rearmed_after_open_frames (config : Config) (s : Engine)
    (inp : FrameInput) (tr : Trigger) (rest : list FrameInput) :
  eyes_untracked s ->
  trigger_of (snd (processFrame config s inp)) = Some tr ->
  snd (run config (fst (processFrame config s inp)) rest) = [] ->
  (BASE_THRESHOLDS.rearmOpenFrames
   <= openStreak config (fst (processFrame config s inp)) rest 0)%nat ->
  rearmReady (fst (processFrame config s inp)) = false
  /\ rearmReady (after config (fst (processFrame config s inp)) rest) = true.
Proof.
  intros Hu Htr Hquiet Hstreak.
  assert (Hlock : rearm_lock 1 (fst (processFrame config s inp))).
  { apply (proj1 (processFrame_lock config s inp)). rewrite Htr.
    discriminate. }
  destruct Hlock as [Hfalse Hopen]. split; [exact Hfalse |].
  destruct (processFrame_untracked config s inp Hu) as [Hu1 _].
  destruct (quiet_run config rest (fst (processFrame config s inp)) 0%nat
              Hu1 Hquiet) as [_ [_ Harm]].
  { right. unfold BASE_THRESHOLDS.rearmOpenFrames. lia. }
  destruct Harm as [H | [H1 H2]]; [exact H | lia].
Qed.

Lemma rearmed_after_open_frames_witness :
  rearmReady (after Scenario.head_config initial_engine
                (Scenario.approach ++ [Scenario.first_turn])) = false
  /\ rearmReady (after Scenario.head_config initial_engine
                   (Scenario.approach ++ Scenario.first_turn
                    :: Scenario.still_turned
                    ++ Scenario.back_to_center :: Scenario.at_center))
     = true.
Proof.
  split; [vm_compute; reflexivity |].
  rewrite after_app, after_cons.
  refine (proj2 (rearmed_after_open_frames Scenario.head_config
                   (after Scenario.head_config initial_engine
                      Scenario.approach)
                   Scenario.first_turn (mkTrigger next head_right)
                   (Scenario.still_turned
                    ++ Scenario.back_to_center :: Scenario.at_center)
                   _ _ _ _));
    first [ vm_compute; reflexivity
          | repeat split; vm_compute; reflexivity
          | vm_compute; repeat constructor ].
Defined.

(** ** What a frame may change in the calibration values *)

Lemma processFrame_noise config s inp :
  noise (fst (processFrame config s inp)) = noise s.
Proof.
  unfold processFrame.
  destruct (enterFrame config s inp) as [[s' o] | [s1 r]] eqn:He.
  - apply enterFrame_early in He. apply He.
  - apply enterFrame_on in He.
    pose proof (finishFrame_keeps config s1 r (dateNow inp)) as Hk.
    cbv zeta in Hk. destruct Hk as [_ [_ [_ [_ [_ [_ Hn]]]]]].
    rewrite Hn. apply He.
Qed.

(** X6: [processFrame] never writes the noise estimate: after any run it
    is what calibration left. *)
Theorem noise_is_never_adapted (config : Config) (s : Engine)
    (inputs : list FrameInput) :
  noise (after config s inputs) = noise s.
Proof.
  revert s. induction inputs as [| inp rest IH]; intros s; [reflexivity |].
  rewrite after_cons, IH. apply processFrame_noise.
Qed.

Lemma finishFrame_baseline config s r t :
  baseline (fst (finishFrame config s r t))
  = adaptBaseline r (frameLocals config s r t) (baseline s).
Proof.
  unfold finishFrame.
  destruct (winkMachine _ _ _) as [[ws wst] wt].
  destruct (blinkMachine _ _ _) as [bs bh].
  destruct (blinkAndHeadTriggers _ _ _ _ _ _ _) as [[trig lh] hs].
  destruct trig; destruct (rearm _ _ _); reflexivity.
Qed.

(** X7: a call changes the baseline only if the frame runs to the end
    with both eyes classified open while the global cooldown has elapsed;
    in particular the baseline is frozen during the cooldown that follows
    a trigger and on every frame that is skipped, has no face or throws. *)
Theorem baseline_moves_only_with_open_eyes (config : Config) (s : Engine)
    (inp : FrameInput) :
  baseline (fst (processFrame config s inp)) <> baseline s ->
  exists r, frameReading config s inp = Some r
            /\ leftOpen r = true /\ rightOpen r = true
            /\ (cooldownMs config <= dateNow inp - lastTriggerTime s)%Z
            /\ exists t, snd (processFrame config s inp) = Processed t.
Proof.
  unfold processFrame.
  destruct (enterFrame config s inp) as [[s' o] | [s1 r]] eqn:He.
  - apply enterFrame_early in He. destruct He as [Hs _]. cbn [fst].
    intros Hne. exfalso. apply Hne. apply Hs.
  - pose proof (enterFrame_reading _ _ _ _ _ He) as Hf.
    apply enterFrame_on in He.
    destruct He as [Hl [_ [_ [_ [_ [_ [_ [_ [_ [_ [Hb _]]]]]]]]]]].
    rewrite finishFrame_baseline, finishFrame_outcome. unfold adaptBaseline.
    change (inCooldown (frameLocals config s1 r (dateNow inp)))
      with (dateNow inp - lastTriggerTime s1 <? cooldownMs config)%Z.
    rewrite Hl, Hb.
    destruct (leftOpen r) eqn:Hlo; [| intros Hne; now exfalso].
    destruct (rightOpen r) eqn:Hro; [| intros Hne; now exfalso].
    destruct (dateNow inp - lastTriggerTime s <? cooldownMs config)%Z eqn:Hc;
      [intros Hne; now exfalso |].
    intros _. exists r. apply Z.ltb_ge in Hc. repeat split; eauto.
Qed.

Lemma baseline_moves_only_with_open_eyes_witness :
  exists r, frameReading Scenario.head_config
              (after Scenario.head_config initial_engine
                 [Synthetic.frame 10000 0.25 0.25 0])
              (Synthetic.frame 10040 0.25 0.25 (-0.1)) = Some r
            /\ leftOpen r = true /\ rightOpen r = true.
Proof.
  destruct (baseline_moves_only_with_open_eyes Scenario.head_config
              (after Scenario.head_config initial_engine
                 [Synthetic.frame 10000 0.25 0.25 0])
              (Synthetic.frame 10040 0.25 0.25 (-0.1)))
    as [r [Hf [Hl [Hr _]]]].
  - vm_compute. intros H. discriminate.
  - exists r. auto.
Defined.

(** ** The moves of the head-turn state machine *)

Lemma headMachine_result config v state :
  headMachine config v state = center
  \/ headMachine config v state = state
  \/ (state = center
      /\ (headMachine config v state = left
          \/ headMachine config v state = right)).
Proof.
  unfold headMachine.
  destruct (_ <? BASE_THRESHOLDS.headReturnDeg)%float; [auto |].
  destruct (_ <? yawDelta v)%float.
  { destruct state; auto. }
  destruct (yawDelta v <? _)%float; [destruct state; auto | auto].
Qed.

Lemma frameTriggers_state config s r t :
  let hm := headMachine config (frameLocals config s r t) (headTurnState s) in
  snd (frameTriggers config s r t) = hm
  \/ (hm = left /\ snd (frameTriggers config s r t) = triggered_left)
  \/ (hm = right /\ snd (frameTriggers config s r t) = triggered_right).
Proof.
  cbv zeta. unfold frameTriggers, blinkAndHeadTriggers.
  set (v := frameLocals config s r t).
  set (hm := headMachine config v (headTurnState s)).
  destruct (_ && _ && _); [| auto].
  destruct (doubleBlinkTrigger config v _); [auto |].
  destruct (longBlinkTrigger config v _); [auto |].
  unfold headTurnTrigger.
  destruct hm; auto; destruct (_ <? _)%Z; auto.
  - destruct (bindingFor config head_left); auto.
  - destruct (bindingFor config head_right); auto.
Qed.

(** X8: in one call [headTurnState] stays, returns to [center], leaves
    [center], or goes from [left] to [triggered_left] or from [right] to
    [triggered_right]. It never goes from one side to the other, from a
    triggered state back to [left] or [right], or from [left] or [right]
    to the other side's triggered state, without passing [center]. *)
Theorem head_state_moves (config : Config) (s : Engine) (inp : FrameInput) :
  head_move (headTurnState s)
            (headTurnState (fst (processFrame config s inp))) = true.
Proof.
  unfold processFrame.
  destruct (enterFrame config s inp) as [[s' o] | [s1 r]] eqn:He.
  - apply enterFrame_early in He.
    destruct He as [[_ [_ [_ [_ [_ [_ [_ [_ [Hh _]]]]]]]]] _].
    cbn [fst]. rewrite Hh. now destruct (headTurnState s).
  - apply enterFrame_on in He.
    destruct He as [_ [_ [_ [_ [_ [_ [_ [_ [Hh _]]]]]]]]].
    rewrite finishFrame_headTurnState.
    pose proof (frameTriggers_state config s1 r (dateNow inp)) as Hs.
    cbv zeta in Hs. rewrite Hh in Hs.
    pose proof (headMachine_result config
                  (frameLocals config s1 r (dateNow inp)) (headTurnState s))
      as Hm.
    destruct (headTurnState s);
      destruct Hs as [-> | [[Hx ->] | [Hx ->]]];
      destruct Hm as [Hm | [Hm | [Hc [Hm | Hm]]]];
      try rewrite Hm; try reflexivity; congruence.
Qed.

(** ** A yaw that is not a number *)

Section NaNFacts.

Open Scope float_scope.





Lemma sub_nan_l x y : is_nan x = true -> is_nan (x - y) = true.
Proof.
  intros H. apply is_nan_SF in H. apply is_nan_SF.
  rewrite sub_spec, H. reflexivity.
Qed.


Lemma add_nan_r x y : is_nan y = true -> is_nan (x + y) = true.
Proof.
  intros H. apply is_nan_SF in H. apply is_nan_SF.
  rewrite add_spec, H. now destruct (Prim2SF x).
Qed.

Lemma mul_nan_l x y : is_nan x = true -> is_nan (x * y) = true.
Proof.
  intros H. apply is_nan_SF in H. apply is_nan_SF.
  rewrite mul_spec, H. reflexivity.
Qed.


Lemma opp_nan x : is_nan x = true -> is_nan (- x) = true.
Proof.
  intros H. apply is_nan_SF in H. apply is_nan_SF.
  rewrite opp_spec, H. reflexivity.
Qed.

End NaNFacts.






Lemma enterFrame_early_outcome config s inp s' o t :
  enterFrame config s inp = inl (s', o) -> o <> Processed t.
Proof.
  unfold enterFrame.
  destruct (_ <? _)%float; [intros H; inversion H; discriminate |].
  destruct (detection inp) as [landmarks |];
    [| intros H; inversion H; discriminate].
  destruct (calculateSeparateEAR landmarks) as [[leftEar rightEar] | e];
    [| intros H; inversion H; discriminate].
  destruct (calculateYaw landmarks) as [yaw | e];
    [| intros H; inversion H; discriminate].
  destruct (trackClosure _ _) as [since | e];
    [| intros H; inversion H; discriminate].
  destruct (trackClosure _ _) as [since2 | e];
    [discriminate | intros H; inversion H; discriminate].
Qed.

(** X10: one frame is enough to get there: when a frame runs to the end
    with both eyes open, the cooldown elapsed and a smoothed yaw that is
    NaN (the yaw of a face whose nose-to-cheek distances are both zero is
    NaN), the baseline yaw becomes NaN. *)
Theorem nan_yaw_poisons_baseline (config : Config) (s : Engine)
    (inp : FrameInput) (r : Reading) (t : option Trigger) :
  frameReading config s inp = Some r ->
  snd (processFrame config s inp) = Processed t ->
  leftOpen r = true -> rightOpen r = true ->
  (cooldownMs config <= dateNow inp - lastTriggerTime s)%Z ->
  is_nan (smoothYaw r) = true ->
  is_nan (bYaw (baseline (fst (processFrame config s inp)))) = true.
Proof.
  intros Hf Ho Hlo Hro Hc Hy. unfold processFrame in *.
  destruct (enterFrame config s inp) as [[s' o] | [s1 r1]] eqn:He.
  - cbn [snd] in Ho. subst o.
    exfalso. exact (enterFrame_early_outcome _ _ _ _ _ t He eq_refl).
  - pose proof (enterFrame_reading _ _ _ _ _ He) as Hf1.
    rewrite Hf in Hf1. inversion Hf1; subst r1.
    apply enterFrame_on in He. destruct He as [Hl _].
    rewrite finishFrame_baseline. unfold adaptBaseline.
    change (inCooldown (frameLocals config s1 r (dateNow inp)))
      with (dateNow inp - lastTriggerTime s1 <? cooldownMs config)%Z.
    rewrite Hl, Hlo, Hro.
    assert (Hcd : (dateNow inp - lastTriggerTime s <? cooldownMs config)%Z
                  = false) by now apply Z.ltb_ge.
    rewrite Hcd. cbn [andb negb bYaw].
    apply add_nan_r, mul_nan_l, Hy.
Qed.

Lemma nan_yaw_poisons_baseline_witness :
  calculateYaw Degenerate.collapsed_face = Ok nan
  /\ is_nan (bYaw (baseline (fst (processFrame Scenario.head_config
                                    initial_engine
                                    (Degenerate.collapsed_frame 10000)))))
     = true.
Proof.
  split; [vm_compute; reflexivity |].
  refine (nan_yaw_poisons_baseline Scenario.head_config initial_engine
            (Degenerate.collapsed_frame 10000) _ None _ _ _ _ _ _).
  - vm_compute. reflexivity.
  - vm_compute. reflexivity.
  - reflexivity.
  - reflexivity.
  - vm_compute. discriminate.
  - vm_compute. reflexivity.
Defined.

(** ** Calibration with samples *)

Lemma sampleTick_lengths face acc acc' n :
  sampleTick face acc = Ok acc' -> equal_lengths acc n ->
  equal_lengths acc' (match face with Some _ => 1 | None => 0 end + n)%nat.
Proof.
  unfold sampleTick, equal_lengths. intros H [H1 [H2 [H3 H4]]].
  destruct face as [landmarks |]; [| inversion H; subst; auto].
  destruct (calculateSeparateEAR landmarks) as [[l r] | e]; [| discriminate].
  destruct (calculateYaw landmarks) as [yaw | e]; [| discriminate].
  cbn in H. inversion H; subst. cbn.
  rewrite !length_app. cbn. repeat split; lia.
Qed.

Lemma sampleLoop_lengths startTime ticks :
  forall acc n smp,
    sampleLoop startTime ticks acc = Some (Ok smp) ->
    equal_lengths acc n ->
    equal_lengths smp (n + facesInWindow startTime ticks)%nat.
Proof.
  induction ticks as [| t rest IH]; intros acc n smp H Hacc; [discriminate |].
  cbn [sampleLoop facesInWindow] in *.
  destruct (tickTime t - startTime <? calibrationDuration)%Z.
  - destruct (sampleTick (tickFace t) acc) as [acc' |] eqn:Ht; [| discriminate].
    pose proof (sampleTick_lengths _ _ _ _ Ht Hacc) as Hacc'.
    specialize (IH _ _ _ H Hacc').
    replace (n + (match tickFace t with Some _ => 1 | None => 0 end
                  + facesInWindow startTime rest))%nat
      with (match tickFace t with Some _ => 1 | None => 0 end + n
            + facesInWindow startTime rest)%nat by lia.
    exact IH.
  - inversion H; subst. now rewrite Nat.add_0_r.
Qed.

Lemma sampleLoop_ends startTime ticks :
  windowEnds startTime ticks ->
  forall acc, exists res, sampleLoop startTime ticks acc = Some res.
Proof.
  induction ticks as [| t rest IH]; intros [t0 [Hin Hend]] acc.
  - destruct Hin.
  - cbn [sampleLoop].
    destruct (tickTime t - startTime <? calibrationDuration)%Z eqn:Hlt;
      [| eauto].
    destruct (sampleTick (tickFace t) acc) as [acc' | e]; [| eauto].
    apply IH. destruct Hin as [-> | Hin].
    + apply Z.ltb_lt in Hlt. lia.
    + exists t0. now split.
Qed.

(** X11: when the clock reaches the end of the window the sampling loop
    ends, and if no face made it throw, each of the four sample arrays
    holds exactly one value per face found before the end of the window:
    ticks without a face and ticks after the window add nothing. *)
Theorem calibration_collects_faces (startTime : Z)
    (ticks : list CalibrationTick) :
  windowEnds startTime ticks ->
  exists res,
    sampleLoop startTime ticks no_samples = Some res
    /\ forall smp, res = Ok smp ->
                   equal_lengths smp (facesInWindow startTime ticks).
Proof.
  intros He. destruct (sampleLoop_ends _ _ He no_samples) as [res Hres].
  exists res. split; [exact Hres |]. intros smp ->.
  apply (sampleLoop_lengths _ _ no_samples 0%nat smp Hres).
  unfold equal_lengths. cbn. auto.
Qed.

Lemma calibration_collects_faces_witness :
  exists res,
    sampleLoop 0 calibration_ticks no_samples = Some res
    /\ forall smp, res = Ok smp -> equal_lengths smp 3.
Proof.
  apply (calibration_collects_faces 0 calibration_ticks).
  exists (mkTick 2000 (Some (Synthetic.face 0.05 0.05 0))).
  split; [| vm_compute; discriminate].
  unfold calibration_ticks. cbn. auto 6.
Defined.





(** ** Pausing and stopping the loop *)

Lemma detectLoop_paused config m inp requestId :
  isPaused (session m) = true ->
  snd (detectLoop config m inp requestId) = None
  /\ engine (fst (detectLoop config m inp requestId)) = engine m
  /\ isPaused (session (fst (detectLoop config m inp requestId))) = true
  /\ isRunning (session (fst (detectLoop config m inp requestId)))
     = isRunning (session m).
Proof.
  intros Hp. unfold detectLoop.
  destruct (_ || _ || _); [cbn; auto |].
  rewrite Hp. cbn. auto.
Qed.

Lemma loopRun_paused config ticks :
  forall m,
    isPaused (session m) = true ->
    snd (loopRun config m ticks) = []
    /\ engine (fst (loopRun config m ticks)) = engine m
    /\ isPaused (session (fst (loopRun config m ticks))) = true
    /\ isRunning (session (fst (loopRun config m ticks)))
       = isRunning (session m).
Proof.
  induction ticks as [| [inp requestId] rest IH]; intros m Hp; [cbn; auto |].
  cbn [loopRun].
  destruct (detectLoop_paused config m inp requestId Hp) as [Ho [He [Hp1 Hr]]].
  destruct (detectLoop config m inp requestId) as [m1 o]. cbn [fst snd] in *.
  destruct (IH m1 Hp1) as [Hes [He2 [Hp2 Hr2]]].
  destruct (loopRun config m1 rest) as [m2 es]. cbn [fst snd] in *.
  subst o es. cbn. repeat split; congruence.
Qed.

(** X13: while the loop is paused, however often the animation-frame
    callback fires, no frame is processed and nothing is emitted; after
    [resumeFaceControl] the detection state is exactly the one at the time
    of [pauseFaceControl] (frames seen meanwhile are dropped, not queued). *)
Theorem paused_loop_processes_nothing (config : Config) (m : FaceControl)
    (ticks : list (FrameInput * nat)) :
  snd (loopRun config (pauseFaceControl m) ticks) = []
  /\ engine (resumeFaceControl
               (fst (loopRun config (pauseFaceControl m) ticks)))
     = engine m
  /\ isPaused (session (resumeFaceControl
                          (fst (loopRun config (pauseFaceControl m) ticks))))
     = false
  /\ isRunning (session (fst (loopRun config (pauseFaceControl m) ticks)))
     = isRunning (session m).
Proof.
  destruct (loopRun_paused config ticks (pauseFaceControl m) eq_refl)
    as [Hes [He [_ Hr]]].
  repeat split; auto.
Qed.

Lemma loopRun_stopped config ticks :
  forall m,
    isRunning (session m) = false -> loopRun config m ticks = (m, []).
Proof.
  induction ticks as [| [inp requestId] rest IH]; intros m Hr; [reflexivity |].
  cbn [loopRun]. unfold detectLoop. rewrite Hr. cbn [negb orb].
  now rewrite (IH m Hr).
Qed.

(** X14: stopping is final and idempotent: after [destroyFaceControl] any
    number of late firings of the callback leave the module as it is and
    emit nothing, a second [destroyFaceControl] changes nothing, and a
    pause that was in force is forgotten. *)
Theorem destroy_is_final (config : Config) (m : FaceControl)
    (ticks : list (FrameInput * nat)) :
  loopRun config (destroyFaceControl m) ticks = (destroyFaceControl m, [])
  /\ destroyFaceControl (destroyFaceControl m) = destroyFaceControl m
  /\ destroyFaceControl (pauseFaceControl m) = destroyFaceControl m.
Proof.
  split; [now apply loopRun_stopped | split; reflexivity].
Qed.

(** ** The helpers of utils.js and the smoothing functions *)

Section OrderFacts.

Open Scope float_scope.

Lemma SFcompare_antisym x y c :
  SpecFloat.SFcompare x y = Some c ->
  SpecFloat.SFcompare y x = Some (CompOpp c).
Proof.
  destruct x as [sx | sx | | sx mx ex], y as [sy | sy | | sy my ey]; cbn;
    try discriminate; intros H; inversion H; subst; clear H;
    try (destruct sx; reflexivity); try (destruct sy; reflexivity);
    try (destruct sx, sy; reflexivity).
  destruct sx, sy; try reflexivity.
  - rewrite (Z.compare_antisym ex ey).
    pose proof (Pos.compare_cont_antisym mx my Eq) as Ha. cbn in Ha.
    destruct (ex ?= ey)%Z eqn:He; cbn; try reflexivity.
    now rewrite <- Ha.
  - rewrite (Z.compare_antisym ex ey).
    pose proof (Pos.compare_cont_antisym mx my Eq) as Ha. cbn in Ha.
    destruct (ex ?= ey)%Z eqn:He; cbn; try reflexivity.
    now rewrite <- Ha.
Qed.

Lemma SFcompare_some x y :
  x <> SpecFloat.S754_nan -> y <> SpecFloat.S754_nan ->
  exists c, SpecFloat.SFcompare x y = Some c.
Proof.
  destruct x, y; cbn; intros Hx Hy; try congruence; eauto.
Qed.

Lemma not_nan_SF x : is_nan x = false -> Prim2SF x <> SpecFloat.S754_nan.
Proof.
  intros H Hn. apply is_nan_SF in Hn. congruence.
Qed.

Lemma leb_refl x : is_nan x = false -> (x <=? x) = true.
Proof.
  intros H. rewrite leb_spec. unfold SpecFloat.SFleb.
  rewrite SFcompare_refl; [reflexivity | now apply not_nan_SF].
Qed.

Lemma ltb_leb x y : (x <? y) = true -> (x <=? y) = true.
Proof.
  rewrite ltb_spec, leb_spec. unfold SpecFloat.SFltb, SpecFloat.SFleb.
  destruct (SpecFloat.SFcompare _ _) as [[| |] |]; congruence.
Qed.

Lemma not_ltb_leb x y :
  is_nan x = false -> is_nan y = false ->
  (y <? x) = false -> (x <=? y) = true.
Proof.
  intros Hx Hy. rewrite ltb_spec, leb_spec.
  unfold SpecFloat.SFltb, SpecFloat.SFleb.
  destruct (SFcompare_some _ _ (not_nan_SF _ Hx) (not_nan_SF _ Hy)) as [c Hc].
  rewrite (SFcompare_antisym _ _ _ Hc), Hc.
  destruct c; cbn; congruence.
Qed.

Lemma max_cases a b :
  is_nan a = false -> is_nan b = false ->
  is_nan (JsNum.max a b) = false
  /\ (b <=? JsNum.max a b) = true.
Proof.
  intros Ha Hb. unfold JsNum.max. rewrite Ha, Hb. cbn [orb].
  destruct (a <? b) eqn:Hab; [split; [exact Hb | now apply leb_refl] |].
  destruct (b <? a) eqn:Hba; [split; [exact Ha | now apply ltb_leb] |].
  destruct (get_sign a); [split; [exact Hb | now apply leb_refl] |].
  split; [exact Ha | now apply not_ltb_leb].
Qed.

Lemma min_cases a b :
  is_nan a = false -> is_nan b = false ->
  (JsMath.min a b = a \/ JsMath.min a b = b)
  /\ (JsMath.min a b <=? b) = true.
Proof.
  intros Ha Hb. unfold JsMath.min. rewrite Ha, Hb. cbn [orb].
  destruct (a <? b) eqn:Hab; [split; [auto | now apply ltb_leb] |].
  destruct (b <? a) eqn:Hba; [split; [auto | now apply leb_refl] |].
  destruct (get_sign a);
    [split; [auto | now apply not_ltb_leb]
    | split; [auto | now apply leb_refl]].
Qed.

End OrderFacts.

(** X15: [clamp] of three numbers with [min <= max] returns a number
    between the bounds; if [num] is NaN, so is the result (a clamped page
    index or zoom factor is then not a number). *)
Theorem clamp_within_bounds (num lo hi : float) :
  is_nan lo = false -> is_nan hi = false -> (lo <=? hi)%float = true ->
  (is_nan num = false ->
   (lo <=? clamp num lo hi)%float = true
   /\ (clamp num lo hi <=? hi)%float = true)
  /\ (is_nan num = true -> is_nan (clamp num lo hi) = true).
Proof.
  intros Hlo Hhi Hle. split.
  - intros Hn. unfold clamp.
    destruct (max_cases num lo Hn Hlo) as [Hm Hlm].
    destruct (min_cases (JsNum.max num lo) hi Hm Hhi) as [[-> | ->] Hr];
      auto.
  - intros Hn. unfold clamp, JsNum.max, JsMath.min. rewrite Hn. reflexivity.
Qed.

Lemma clamp_within_bounds_witness :
  clamp 7 1 5 = 5%float /\ (clamp 7 1 5 <=? 5)%float = true.
Proof.
  split; [vm_compute; reflexivity |].
  refine (proj2 (proj1 (clamp_within_bounds 7 1 5 _ _ _) _));
    vm_compute; reflexivity.
Defined.





Lemma insert_sorted_In x a sorted :
  In x (JsNum.insert_sorted a sorted) <-> x = a \/ In x sorted.
Proof.
  induction sorted as [| y rest IH]; cbn.
  - intuition congruence.
  - destruct (0 <? y - a)%float; cbn; [intuition congruence |].
    rewrite IH. intuition congruence.
Qed.

Lemma insert_sorted_length a sorted :
  length (JsNum.insert_sorted a sorted) = S (length sorted).
Proof.
  induction sorted as [| y rest IH]; cbn; [reflexivity |].
  destruct (0 <? y - a)%float; cbn; [reflexivity | now rewrite IH].
Qed.

Lemma sort_fold_In values :
  forall acc x,
    In x (fold_left (fun acc x => JsNum.insert_sorted x acc) values acc)
    <-> In x acc \/ In x values.
Proof.
  induction values as [| v rest IH]; intros acc x; cbn.
  - intuition.
  - rewrite IH, insert_sorted_In. intuition congruence.
Qed.

Lemma sort_fold_length values :
  forall acc,
    length (fold_left (fun acc x => JsNum.insert_sorted x acc) values acc)
    = (length acc + length values)%nat.
Proof.
  induction values as [| v rest IH]; intros acc; cbn; [lia |].
  rewrite IH, insert_sorted_length. lia.
Qed.

Lemma sort_In values x : In x (JsNum.sort values) <-> In x values.
Proof. unfold JsNum.sort. rewrite sort_fold_In. cbn. intuition. Qed.

Lemma sort_length values : length (JsNum.sort values) = length values.
Proof. unfold JsNum.sort. now rewrite sort_fold_length. Qed.

(** X17: [median] never invents a value: over a history of odd length it
    returns one of the samples, over a non-empty history of even length
    the half-sum of two of them; whatever the comparator makes of NaN, the
    sorted copy has the same elements and length as the history. *)
Theorem median_is_made_of_samples (values : list float) :
  values <> [] ->
  (Nat.even (length values) = false -> In (median values) values)
  /\ (Nat.even (length values) = true ->
      exists a b, In a values /\ In b values
                  /\ median values = ((a + b) / 2)%float).
Proof.
  intros Hne. unfold median.
  destruct values as [| v0 rest]; [contradiction |].
  set (values := v0 :: rest) in *.
  assert (Hlen : (0 < length values)%nat) by (cbn; lia).
  rewrite sort_length.
  assert (Hmid : (length values / 2 < length (JsNum.sort values))%nat).
  { rewrite sort_length. apply Nat.div_lt; lia. }
  split; intros He; rewrite He.
  - apply sort_In. apply nth_In. exact Hmid.
  - exists (nth (length values / 2 - 1) (JsNum.sort values) nan),
           (nth (length values / 2) (JsNum.sort values) nan).
    split; [| split; [| reflexivity]].
    + apply sort_In. apply nth_In. lia.
    + apply sort_In. apply nth_In. exact Hmid.
Qed.

Lemma median_is_made_of_samples_witness :
  In (median [0.3; 0.1; 0.2]%float) [0.3; 0.1; 0.2]%float.
Proof.
  refine (proj1 (median_is_made_of_samples [0.3; 0.1; 0.2]%float _) _).
  - discriminate.
  - reflexivity.
Defined.

(** * Properties of the first variant *)

Lemma calculateEAR_error landmarks e :
  calculateEAR landmarks = Throw e -> e = TypeError.
Proof.
  unfold calculateEAR, bind.
  destruct (calculateSeparateEAR landmarks) as [[l r] | e0] eqn:He;
    [discriminate |].
  intros H. inversion H; subst. unfold calculateSeparateEAR, bind in He.
  destruct (eye_at landmarks 33 160 158 133 153 144) eqn:H1;
    [| apply eye_at_error in H1; congruence].
  destruct (eye_at landmarks 362 385 387 263 373 380) eqn:H2;
    [discriminate | apply eye_at_error in H2; congruence].
Qed.

Lemma calculateMAR_error landmarks e :
  calculateMAR landmarks = Throw e -> e = TypeError.
Proof.
  unfold calculateMAR, bind.
  repeat match goal with
         | |- context [at_index landmarks ?i] =>
             let H := fresh "H" in
             destruct (at_index landmarks i) eqn:H;
             [| apply at_index_error in H; congruence]
         end.
  discriminate.
Qed.

Lemma calculateYaw_error landmarks e :
  calculateYaw landmarks = Throw e -> e = TypeError.
Proof.
  unfold calculateYaw, bind.
  repeat match goal with
         | |- context [at_index landmarks ?i] =>
             let H := fresh "H" in
             destruct (at_index landmarks i) eqn:H;
             [| apply at_index_error in H; congruence]
         end.
  discriminate.
Qed.

Lemma calculateMAR_wellFormed landmarks :
  wellFormed landmarks -> exists m, calculateMAR landmarks = Ok m.
Proof.
  unfold wellFormed. intros H. unfold calculateMAR.
  destruct (at_index_ok landmarks 13) as [a ->]; [lia |].
  destruct (at_index_ok landmarks 14) as [b ->]; [lia |].
  destruct (at_index_ok landmarks 61) as [c ->]; [lia |].
  destruct (at_index_ok landmarks 291) as [d ->]; [lia |].
  cbn. eauto.
Qed.

Lemma calculateYaw_short landmarks :
  (length landmarks < 455)%nat ->
  calculateYaw landmarks = Throw TypeError.
Proof.
  intros H. destruct (signals_short landmarks H) as [He | [_ Hy]];
    [| exact Hy].
  destruct (calculateYaw landmarks) as [y | e] eqn:Hy; [| f_equal;
    eapply calculateYaw_error; eauto].
  exfalso. unfold calculateYaw, bind in Hy.
  destruct (at_index landmarks 1); [| discriminate].
  destruct (at_index landmarks 234); [| discriminate].
  rewrite at_index_short in Hy by lia. discriminate.
Qed.

(** X18: the first variant's [processFrame] ends in one of three ways:
    without a face it reports no face and leaves the state alone; with at
    least 455 landmarks it runs to the end (it never throws: [now] is
    declared before it is read); with fewer it throws a TypeError before
    any variable is written. *)
Theorem legacy_frame_outcomes (config : Config) (s : Legacy.Engine)
    (inp : FrameInput) :
  match detection inp with
  | None => Legacy.processFrame config s inp = (s, NoFace)
  | Some landmarks =>
      (wellFormed landmarks ->
       exists t, snd (Legacy.processFrame config s inp) = Processed t)
      /\ ((length landmarks < 455)%nat ->
          Legacy.processFrame config s inp = (s, Threw TypeError))
  end.
Proof.
  unfold Legacy.processFrame.
  destruct (detection inp) as [landmarks |]; [| reflexivity].
  split.
  - intros Hw.
    destruct (signals_wellFormed landmarks Hw) as [[[l r] He] [y Hy]].
    destruct (calculateMAR_wellFormed landmarks Hw) as [m Hm].
    unfold calculateEAR. rewrite He. cbn [bind]. rewrite Hm, Hy.
    destruct (Legacy.detectTriggers _ _ _ _ _ _) as [[trig lh] st].
    cbn. eauto.
  - intros Hlen. rewrite (calculateYaw_short landmarks Hlen).
    destruct (calculateEAR landmarks) as [e | err] eqn:He.
    + destruct (calculateMAR landmarks) as [m | err] eqn:Hm;
        [reflexivity |].
      apply calculateMAR_error in Hm. now subst.
    + apply calculateEAR_error in He. now subst.
Qed.

Lemma legacy_frame_outcomes_witness :
  (exists t, snd (Legacy.processFrame default_config Legacy.initial_engine
                    (Synthetic.frame 1000 0.25 0.25 0)) = Processed t)
  /\ Legacy.processFrame default_config Legacy.initial_engine
       (mkInput 1000 (Some (firstn 400 (Synthetic.face 0.25 0.25 0))) 1000)
     = (Legacy.initial_engine, Threw TypeError).
Proof.
  split.
  - refine (proj1 (legacy_frame_outcomes default_config Legacy.initial_engine
                     (Synthetic.frame 1000 0.25 0.25 0)) _).
    unfold wellFormed. apply Nat.leb_le. vm_compute. reflexivity.
  - refine (proj2 (legacy_frame_outcomes default_config Legacy.initial_engine
                     (mkInput 1000
                        (Some (firstn 400 (Synthetic.face 0.25 0.25 0)))
                        1000)) _).
    apply Nat.ltb_lt. vm_compute. reflexivity.
Defined.

(** ** Cooldown in the first variant *)

Lemma legacy_detectTriggers_cooldown config now inCooldown history state
      lastHead t :
  fst (fst (Legacy.detectTriggers config now inCooldown history state lastHead))
  = Some t ->
  inCooldown = false.
Proof.
  unfold Legacy.detectTriggers. destruct inCooldown; [discriminate | auto].
Qed.

Lemma legacy_processFrame_spacing config s inp :
  match trigger_of (snd (Legacy.processFrame config s inp)) with
  | Some _ =>
      (cooldownMs config <= dateNow inp - Legacy.lastTriggerTime s)%Z
      /\ Legacy.lastTriggerTime (fst (Legacy.processFrame config s inp))
         = dateNow inp
  | None =>
      Legacy.lastTriggerTime (fst (Legacy.processFrame config s inp))
      = Legacy.lastTriggerTime s
  end.
Proof.
  unfold Legacy.processFrame.
  destruct (detection inp) as [landmarks |]; [| reflexivity].
  destruct (calculateEAR landmarks) as [e | err]; [| reflexivity].
  destruct (calculateMAR landmarks) as [m | err]; [| reflexivity].
  destruct (calculateYaw landmarks) as [y | err]; [| reflexivity].
  destruct (Legacy.detectTriggers _ _ _ _ _ _) as [[trig lh] st] eqn:Hd.
  cbn [fst snd trigger_of Legacy.lastTriggerTime].
  destruct trig as [t |]; [| reflexivity].
  split; [| reflexivity].
  pose proof (legacy_detectTriggers_cooldown _ _ _ _ _ _ t
                ltac:(rewrite Hd; reflexivity)) as Hc.
  apply Z.ltb_ge in Hc. exact Hc.
Qed.

Lemma legacy_run_spaced config inputs :
  forall s, spaced (cooldownMs config) (Legacy.lastTriggerTime s)
                   (snd (Legacy.run config s inputs)).
Proof.
  induction inputs as [| inp rest IH]; intros s; [exact I |].
  cbn [Legacy.run].
  pose proof (legacy_processFrame_spacing config s inp) as Hstep.
  destruct (Legacy.processFrame config s inp) as [s1 o].
  cbn [fst snd] in Hstep.
  specialize (IH s1). destruct (Legacy.run config s1 rest) as [s2 es].
  cbn [snd] in *. unfold emission.
  destruct o as [| | [t |] | e]; cbn [trigger_of app] in *;
    try (rewrite <- Hstep; exact IH).
  destruct Hstep as [Hc Hl]. cbn [spaced emittedAt]. split; [exact Hc |].
  rewrite <- Hl. exact IH.
Qed.

(** X19: the first variant keeps the cooldown too: any two triggers of a
    run are at least [cooldownMs] apart, for [cooldownMs >= 0]. *)
Theorem legacy_triggers_respect_cooldown (config : Config)
    (s : Legacy.Engine) (inputs : list FrameInput) (i j : nat)
    (ei ej : Emission) :
  (0 <= cooldownMs config)%Z ->
  (i < j)%nat ->
  nth_error (snd (Legacy.run config s inputs)) i = Some ei ->
  nth_error (snd (Legacy.run config s inputs)) j = Some ej ->
  (cooldownMs config <= emittedAt ej - emittedAt ei)%Z.
Proof.
  intros Hc. apply (spaced_pairwise _ (Legacy.lastTriggerTime s));
    [exact Hc |].
  apply legacy_run_spaced.
Qed.

Lemma legacy_triggers_respect_cooldown_witness :
  (cooldownMs default_config
   <= emittedAt (mkEmission 12760 (mkTrigger next double_blink))
      - emittedAt (mkEmission 10760 (mkTrigger next double_blink)))%Z.
Proof.
  apply (legacy_triggers_respect_cooldown default_config
           Legacy.initial_engine Legacy.two_double_blinks 0 1).
  - vm_compute. discriminate.
  - apply Nat.lt_0_1.
  - vm_compute. reflexivity.
  - vm_compute. reflexivity.
Defined.

(** ** Stopping the first variant *)

Lemma legacy_processFrame_baseline config s inp :
  Legacy.baseline (fst (Legacy.processFrame config s inp))
  = Legacy.baseline s.
Proof.
  unfold Legacy.processFrame.
  destruct (detection inp) as [landmarks |]; [| reflexivity].
  destruct (calculateEAR landmarks) as [e | err]; [| reflexivity].
  destruct (calculateMAR landmarks) as [m | err]; [| reflexivity].
  destruct (calculateYaw landmarks) as [y | err]; [| reflexivity].
  destruct (Legacy.detectTriggers _ _ _ _ _ _) as [[trig lh] st].
  reflexivity.
Qed.

Lemma legacy_run_baseline config inputs :
  forall s, Legacy.baseline (fst (Legacy.run config s inputs))
            = Legacy.baseline s.
Proof.
  induction inputs as [| inp rest IH]; intros s; [reflexivity |].
  cbn [Legacy.run].
  pose proof (legacy_processFrame_baseline config s inp) as Hb.
  destruct (Legacy.processFrame config s inp) as [s1 o]. cbn [fst] in Hb.
  specialize (IH s1). destruct (Legacy.run config s1 rest) as [s2 es].
  cbn [fst] in *. congruence.
Qed.

(** X20: in the first variant a stop wipes everything a session wrote:
    [processFrame] never touches the baseline, and [destroyFaceControl]
    resets every other variable, so after any run from the calibrated
    initial state the stopped module is the stopped fresh module. *)
Theorem legacy_destroy_forgets_the_session (config : Config)
    (ss : Session) (b : Legacy.Baseline) (inputs : list FrameInput) :
  let calibrated :=
    {| Legacy.lastTriggerTime := 0; Legacy.blinkHistory := [];
       Legacy.earHistory := []; Legacy.marHistory := [];
       Legacy.yawHistory := []; Legacy.headTurnState := center;
       Legacy.lastHeadTurnTrigger := 0; Legacy.baseline := b |} in
  Legacy.destroyFaceControl
    (Legacy.mkFaceControl ss (fst (Legacy.run config calibrated inputs)))
  = Legacy.mkFaceControl initial_session calibrated.
Proof.
  cbv zeta. unfold Legacy.destroyFaceControl. cbn [Legacy.engine].
  now rewrite legacy_run_baseline.
Qed.
